(** * react-cool-virtual: the virtualization engine of the [useVirtual] hook

    A shallow embedding of the hook's engine (measurement store, window
    calculator, scroll navigator, sticky resolver, incremental loader) and
    the properties of it that the specification states.

    Conventions of the embedding.
    - JavaScript numbers that hold pixel values, offsets and indices are
      integers ([Z]); the few places where the code leaves the integers
      (halving, easing, the resize ratio) go through [FloatOps].
    - A JavaScript array is a list of optional entries ([None] is a hole);
      reading outside it or at a hole gives [undefined], writing past its end
      extends it.
    - Reading a property of [undefined] throws a [TypeError]; pure
      computations that may throw return [option], handlers run in the
      monad [M], which keeps the mutations done before the throw. *)

From Stdlib Require Import ZArith List Bool Lia Arith Sorted.
Import ListNotations.
Local Open Scope Z_scope.

Set Implicit Arguments.

(** ** JavaScript arrays *)

Module JsArray.

Definition t (A : Type) := list (option A).

(** [a[i]]: [undefined] outside the array and at a hole. *)
Definition get {A} (a : t A) (i : Z) : option A :=
  if i <? 0 then None
  else match nth_error a (Z.to_nat i) with
       | Some e => e
       | None => None
       end.

(** [a[i] = v] for [0 <= i]: replaces in range, extends with holes past the
    end.  (Negative keys never arise: written indices come from loops that
    start at 0 or at [Math.max(_, 0)].) *)
Definition set {A} (a : t A) (i : Z) (v : A) : t A :=
  if i <? 0 then a
  else
    let n := Z.to_nat i in
    if (n <? length a)%nat
    then firstn n a ++ Some v :: skipn (S n) a
    else a ++ repeat None (n - length a) ++ [Some v].

(** [a.length = n]: truncates or pads with holes. *)
Definition resize {A} (a : t A) (n : nat) : t A :=
  firstn n a ++ repeat None (n - length a).

Definition len {A} (a : t A) : Z := Z.of_nat (length a).

End JsArray.

(** ** Helpers of [./utils] *)

Module Utils.

(** Values that may reach a numeric parameter at run time. *)
Inductive JsVal :=
| JNum (z : Z)
| JUndefined
| JNull
| JBool (b : bool)
| JOther.

(** Modelled from the spec: [isNumber] of [./utils], which is not among the
    sources; the spec speaks of a "non-numeric target offset/index". *)
Definition isNumber (v : JsVal) : bool :=
  match v with JNum _ => true | _ => false end.

Section Search.
Variable getVal : Z -> option Z.
Variable input : Z.

Definition nearestExit (low : Z) : Z := if 0 <? low then low - 1 else 0.

Fixpoint nearestLoop (fuel : nat) (low high : Z) : option Z :=
  match fuel with
  | O => Some (nearestExit low)
  | S fuel' =>
      if low <=? high then
        let mid := Z.quot (low + high) 2 in
        match getVal mid with
        | None => None
        | Some val =>
            if input <? val then nearestLoop fuel' low (mid - 1)
            else if val <? input then nearestLoop fuel' (mid + 1) high
            else Some mid
        end
      else Some (nearestExit low)
  end.

(** Modelled from the spec: [findNearestBinarySearch] of [./utils], which
    is not among the sources.  The spec describes it as a binary search
    over a monotonic sequence that finds the entry holding the target
    (item 2, [start = 200], for offset 250) and, for the sticky list, "the
    greatest sticky index <= visibleStart": the index of the greatest
    value not above [input] in [low..high], index 0 when there is none.
    [getVal] may throw (it reads [msData[idx].start]).  The range shrinks
    at every turn, so [high - low + 1] turns always suffice
    ([nearestLoop_unroll]). *)
Definition findNearestBinarySearch (low high : Z) : option Z :=
  nearestLoop (Z.to_nat (high - low + 1)) low high.
End Search.

End Utils.
Import Utils.

(** ** Data model *)

(** [Measure] of [./types]: [{ idx, start, end, size }]. *)
Record Measure := mkMeasure {
  m_idx : Z;
  m_start : Z;
  m_end : Z;
  m_size : Z
}.

Record Rect := mkRect { r_width : Z; r_height : Z }.

(** [itemSize]: a number, or a function of the index and the viewport width
    that may yield no value. *)
Inductive ItemSize :=
| SizeNum (s : Z)
| SizeFn (f : Z -> Z -> option Z).

Inductive UseIsScrolling :=
| UisAbsent
| UisBool (b : bool)
| UisFn (f : Z -> bool).

(** The options of one render of the hook.  Callbacks supplied by the user
    are represented by their presence; their invocations are logged. *)
Record Options := mkOptions {
  itemCount : nat;
  itemSize : ItemSize;
  horizontal : bool;
  overscanCount : Z;
  useIsScrolling : UseIsScrolling;
  scrollDuration : Z;
  loadMoreCount : Z;
  loadMore : bool;
  onScroll : bool;
  onResize : bool
}.

Definition DEFAULT_ITEM_SIZE : Z := 50.
Definition DEBOUNCE_INTERVAL : Z := 150.

(** [outerRectRef.current[sizeKey]] *)
Definition sizeOf (o : Options) (r : Rect) : Z :=
  if horizontal o then r_width r else r_height r.

(** The value [getCalcData] returns. *)
Record CalcData := mkCalc {
  oStart : Z;
  oStop : Z;
  vStart : Z;
  vStop : Z;
  margin : Z;
  innerSize : Z
}.

(** ** Measurement store *)

Definition Store := JsArray.t Measure.

(** [msData[i]?.end ?? 0] *)
Definition prevEndOf (ms : Store) (i : Z) : Z :=
  match JsArray.get ms (i - 1) with
  | Some m => m_end m
  | None => 0
  end.

Definition getItemSize (o : Options) (rect : Rect) (idx : Z) : Z :=
  match itemSize o with
  | SizeNum s => s
  | SizeFn f =>
      match f idx (r_width rect) with
      | Some s => s
      | None => DEFAULT_ITEM_SIZE
      end
  end.

Definition getMeasure (ms : Store) (idx size : Z) : Measure :=
  let start := prevEndOf ms idx in
  mkMeasure idx start (start + size) size.

(** The body of the loop of [measureItems], [k] turns from index [i]. *)
Fixpoint measureLoop (o : Options) (rect : Rect) (useCache : bool)
    (k : nat) (i : Z) (ms : Store) : Store :=
  match k with
  | O => ms
  | S k' =>
      let size :=
        match (if useCache then JsArray.get ms i else None) with
        | Some m => m_size m
        | None => getItemSize o rect i
        end in
      measureLoop o rect useCache k' (i + 1)
        (JsArray.set ms i (getMeasure ms i size))
  end.

Definition measureStore (o : Options) (rect : Rect) (useCache : bool)
    (ms : Store) : Store :=
  measureLoop o rect useCache (itemCount o) 0
    (JsArray.resize ms (itemCount o)).

(** ** Window calculator *)

Section Calc.
Variable ms : Store.
Variable scrollOffset : Z.

(** The linear scan of dynamic mode:
    [while (vStart < msData.length &&
            msData[vStart].start < (msData[vStart + 1]?.start ?? 0) &&
            msData[vStart].start + msData[vStart].size < scrollOffset)
       vStart += 1].
    The scan visits each index once, so [length ms] turns from 0
    suffice ([scanStart_unroll]). *)
Fixpoint scanStart (fuel : nat) (v : Z) : option Z :=
  match fuel with
  | O => Some v
  | S fuel' =>
      if v <? JsArray.len ms then
        match JsArray.get ms v with
        | None => None
        | Some m =>
            let next :=
              match JsArray.get ms (v + 1) with
              | Some m' => m_start m'
              | None => 0
              end in
            if (m_start m <? next) && (m_start m + m_size m <? scrollOffset)
            then scanStart fuel' (v + 1)
            else Some v
        end
      else Some v
  end.

(** [while (vStop < msData.length && currStart < scrollOffset + outerSize)
      { currStart += msData[vStop].size; vStop += 1 }] *)
Fixpoint scanStop (outerSize : Z) (fuel : nat) (stop currStart : Z)
  : option Z :=
  match fuel with
  | O => Some stop
  | S fuel' =>
      if (stop <? JsArray.len ms) && (currStart <? scrollOffset + outerSize)
      then
        match JsArray.get ms stop with
        | None => None
        | Some m => scanStop outerSize fuel' (stop + 1) (currStart + m_size m)
        end
      else Some stop
  end.
End Calc.

Definition bindO {A B} (x : option A) (f : A -> option B) : option B :=
  match x with Some a => f a | None => None end.

Notation "'letO' x ':=' e 'in' k" := (bindO e (fun x => k))
  (at level 10, x name, e at level 100, k at level 200).

(** The search for [vStart] (lines 130-147): the linear scan once a dynamic
    size has been seen, the binary search over the starts otherwise. *)
Definition findStart (hasDynamicSize : bool) (ms : Store) (scrollOffset : Z)
  : option Z :=
  if hasDynamicSize
  then scanStart ms scrollOffset (length ms) 0
  else findNearestBinarySearch
         (fun idx => option_map m_start (JsArray.get ms idx))
         scrollOffset 0 (JsArray.len ms - 1).

(** [getCalcData]; [None] when the code throws. *)
Definition getCalcData (o : Options) (hasDynamicSize : bool) (rect : Rect)
    (ms : Store) (scrollOffset : Z) : option CalcData :=
  letO vStart := findStart hasDynamicSize ms scrollOffset in
  letO m0 := JsArray.get ms vStart in
  letO vStopX :=
    scanStop ms scrollOffset (sizeOf o rect)
      (Z.to_nat (JsArray.len ms - vStart)) vStart (m_start m0) in
  let oStart := Z.max (vStart - overscanCount o) 0 in
  let oStop := Z.min (vStopX + overscanCount o) (JsArray.len ms) - 1 in
  letO mS := JsArray.get ms oStart in
  let margin := m_start mS in
  letO mE := JsArray.get ms oStop in
  letO mL := JsArray.get ms (JsArray.len ms - 1) in
  let totalSize :=
    (if oStop <? JsArray.len ms - 1 then Z.max else Z.min)
      (m_end mE + m_size mE) (m_end mL) in
  Some (mkCalc oStart oStop vStart (vStopX - 1) margin (totalSize - margin)).

(** A list of [n] items of fixed size [s], without callbacks, and its
    store. *)
Definition fixedOptions (n : nat) (s : Z) (overscan : Z) : Options :=
  mkOptions n (SizeNum s) false overscan UisAbsent 500 15 false false false.

Definition fixedStore (n : nat) (s : Z) : Store :=
  measureStore (fixedOptions n s 1) (mkRect 0 0) false [].

(** ** The engine's state *)

(** The closure of a rendered item's [measureRef]: what the
    [ResizeObserver] callback created by it has captured. *)
Record ProbeEnv := mkProbe {
  pe_i : Z;
  pe_start : Z;
  pe_size : Z;
  pe_scrollOffset : Z;
  pe_isScrolling : bool;
  pe_uxScrolling : bool
}.

(** [Item] of [./types].  [isScrolling] and [isSticky] are [true] or absent;
    [measureRef] is [None] for the inert [() => null]. *)
Record Item := mkItem {
  index : Z;
  start : Z;
  size : Z;
  width : Z;
  isScrolling : bool;
  isSticky : bool;
  measureRef : option ProbeEnv
}.

Inductive Align := AlignAuto | AlignStart | AlignCenter | AlignEnd.

(** The first argument of [scrollTo]: a number or [{ offset, smooth }]. *)
Inductive ScrollToArg :=
| OffsetNum (n : Z)
| OffsetOpts (offset : JsVal) (smooth : option bool).

(** The first argument of [scrollToItem]: a number or
    [{ index, align, smooth }]. *)
Inductive ScrollToItemArg :=
| ItemNum (n : Z)
| ItemOpts (idx : JsVal) (align : option Align) (smooth : option bool).

(** Completion callbacks: the user's (known by an identifier), or the closure
    that [scrollToItem] hands to [scrollToOffset]. *)
Inductive Callback :=
| CbUser (id : nat)
| CbAfterItem (o : Options) (val : ScrollToItemArg) (cb : option nat).

(** [setTimeout(() => scrollToItem(val, cb))] *)
Record Reissue := mkReissue {
  ri_options : Options;
  ri_val : ScrollToItemArg;
  ri_cb : option nat
}.

(** The closure [scroll] of a smooth [scrollToOffset], as requested from
    [requestAnimationFrame]. *)
Record Frame := mkFrame {
  fr_id : nat;
  fr_options : Options;
  fr_start : Z;
  fr_offset : Z;
  fr_prevOffset : Z;
  fr_cb : option Callback
}.

Record LoadMoreArgs := mkLoadMore {
  lm_startIndex : Z;
  lm_stopIndex : Z;
  lm_loadIndex : Z;
  lm_scrollOffset : Z;
  lm_userScroll : bool
}.

Record ScrollInfo := mkScrollInfo {
  overscanStartIndex : Z;
  overscanStopIndex : Z;
  visibleStartIndex : Z;
  visibleStopIndex : Z;
  si_scrollOffset : Z;
  scrollForward : bool;
  si_userScroll : bool
}.

Inductive Call :=
| CallLoadMore (a : LoadMoreArgs)
| CallOnScroll (i : ScrollInfo)
| CallOnResize (r : Rect)
| CallComplete (id : nat).

(** The scroll position of the container. *)
Record Outer := mkOuter { scrollTop : Z; scrollLeft : Z }.

(** The part of the inner element's style the hook writes, in pixels. *)
Record Style := mkStyle {
  marginTop : option Z;
  marginLeft : option Z;
  height : option Z;
  width_ : option Z
}.

Record State := mkState {
  (** the React state [items] *)
  items : list Item;
  isMountedRef : bool;
  hasDynamicSizeRef : bool;
  (** [Map<Element, ResizeObserver>], by identifiers *)
  rosRef : list (nat * nat);
  scrollOffsetRef : Z;
  prevItemIdxRef : Z;
  prevVStopRef : option Z;
  (** the mounted container, if any *)
  outerRef : option Outer;
  (** the style of the mounted inner element, if any *)
  innerRef : option Style;
  outerRectRef : Rect;
  msDataRef : Store;
  userScrollRef : bool;
  scrollToRafRef : option nat;
  stickyIndicesRef : option (list Z);
  isItemLoadedRef : option (Z -> bool);
  (** animation frames requested and not yet run *)
  frames : list Frame;
  nextFrameId : nat;
  (** [setTimeout] callbacks not yet run *)
  timeouts : list Reissue;
  (** [resetIsScrolling] is pending *)
  isScrollingTimer : bool;
  (** [resetUserScroll] is pending *)
  userScrollTimer : bool;
  (** invocations of the user's callbacks, oldest first *)
  calls : list Call
}.

(** Field updates. *)
Definition set_items (v : list Item) (s : State) : State :=
  mkState v (isMountedRef s) (hasDynamicSizeRef s) (rosRef s)
    (scrollOffsetRef s) (prevItemIdxRef s) (prevVStopRef s) (outerRef s)
    (innerRef s) (outerRectRef s) (msDataRef s) (userScrollRef s)
    (scrollToRafRef s) (stickyIndicesRef s) (isItemLoadedRef s) (frames s)
    (nextFrameId s) (timeouts s) (isScrollingTimer s) (userScrollTimer s)
    (calls s).

Definition set_isMountedRef (v : bool) (s : State) : State :=
  mkState (items s) v (hasDynamicSizeRef s) (rosRef s) (scrollOffsetRef s)
    (prevItemIdxRef s) (prevVStopRef s) (outerRef s) (innerRef s)
    (outerRectRef s) (msDataRef s) (userScrollRef s) (scrollToRafRef s)
    (stickyIndicesRef s) (isItemLoadedRef s) (frames s) (nextFrameId s)
    (timeouts s) (isScrollingTimer s) (userScrollTimer s) (calls s).

Definition set_hasDynamicSizeRef (v : bool) (s : State) : State :=
  mkState (items s) (isMountedRef s) v (rosRef s) (scrollOffsetRef s)
    (prevItemIdxRef s) (prevVStopRef s) (outerRef s) (innerRef s)
    (outerRectRef s) (msDataRef s) (userScrollRef s) (scrollToRafRef s)
    (stickyIndicesRef s) (isItemLoadedRef s) (frames s) (nextFrameId s)
    (timeouts s) (isScrollingTimer s) (userScrollTimer s) (calls s).

Definition set_rosRef (v : list (nat * nat)) (s : State) : State :=
  mkState (items s) (isMountedRef s) (hasDynamicSizeRef s) v
    (scrollOffsetRef s) (prevItemIdxRef s) (prevVStopRef s) (outerRef s)
    (innerRef s) (outerRectRef s) (msDataRef s) (userScrollRef s)
    (scrollToRafRef s) (stickyIndicesRef s) (isItemLoadedRef s) (frames s)
    (nextFrameId s) (timeouts s) (isScrollingTimer s) (userScrollTimer s)
    (calls s).

Definition set_scrollOffsetRef (v : Z) (s : State) : State :=
  mkState (items s) (isMountedRef s) (hasDynamicSizeRef s) (rosRef s) v
    (prevItemIdxRef s) (prevVStopRef s) (outerRef s) (innerRef s)
    (outerRectRef s) (msDataRef s) (userScrollRef s) (scrollToRafRef s)
    (stickyIndicesRef s) (isItemLoadedRef s) (frames s) (nextFrameId s)
    (timeouts s) (isScrollingTimer s) (userScrollTimer s) (calls s).

Definition set_prevItemIdxRef (v : Z) (s : State) : State :=
  mkState (items s) (isMountedRef s) (hasDynamicSizeRef s) (rosRef s)
    (scrollOffsetRef s) v (prevVStopRef s) (outerRef s) (innerRef s)
    (outerRectRef s) (msDataRef s) (userScrollRef s) (scrollToRafRef s)
    (stickyIndicesRef s) (isItemLoadedRef s) (frames s) (nextFrameId s)
    (timeouts s) (isScrollingTimer s) (userScrollTimer s) (calls s).

Definition set_prevVStopRef (v : option Z) (s : State) : State :=
  mkState (items s) (isMountedRef s) (hasDynamicSizeRef s) (rosRef s)
    (scrollOffsetRef s) (prevItemIdxRef s) v (outerRef s) (innerRef s)
    (outerRectRef s) (msDataRef s) (userScrollRef s) (scrollToRafRef s)
    (stickyIndicesRef s) (isItemLoadedRef s) (frames s) (nextFrameId s)
    (timeouts s) (isScrollingTimer s) (userScrollTimer s) (calls s).

Definition set_outerRef (v : option Outer) (s : State) : State :=
  mkState (items s) (isMountedRef s) (hasDynamicSizeRef s) (rosRef s)
    (scrollOffsetRef s) (prevItemIdxRef s) (prevVStopRef s) v (innerRef s)
    (outerRectRef s) (msDataRef s) (userScrollRef s) (scrollToRafRef s)
    (stickyIndicesRef s) (isItemLoadedRef s) (frames s) (nextFrameId s)
    (timeouts s) (isScrollingTimer s) (userScrollTimer s) (calls s).

Definition set_innerRef (v : option Style) (s : State) : State :=
  mkState (items s) (isMountedRef s) (hasDynamicSizeRef s) (rosRef s)
    (scrollOffsetRef s) (prevItemIdxRef s) (prevVStopRef s) (outerRef s) v
    (outerRectRef s) (msDataRef s) (userScrollRef s) (scrollToRafRef s)
    (stickyIndicesRef s) (isItemLoadedRef s) (frames s) (nextFrameId s)
    (timeouts s) (isScrollingTimer s) (userScrollTimer s) (calls s).

Definition set_outerRectRef (v : Rect) (s : State) : State :=
  mkState (items s) (isMountedRef s) (hasDynamicSizeRef s) (rosRef s)
    (scrollOffsetRef s) (prevItemIdxRef s) (prevVStopRef s) (outerRef s)
    (innerRef s) v (msDataRef s) (userScrollRef s) (scrollToRafRef s)
    (stickyIndicesRef s) (isItemLoadedRef s) (frames s) (nextFrameId s)
    (timeouts s) (isScrollingTimer s) (userScrollTimer s) (calls s).

Definition set_msDataRef (v : Store) (s : State) : State :=
  mkState (items s) (isMountedRef s) (hasDynamicSizeRef s) (rosRef s)
    (scrollOffsetRef s) (prevItemIdxRef s) (prevVStopRef s) (outerRef s)
    (innerRef s) (outerRectRef s) v (userScrollRef s) (scrollToRafRef s)
    (stickyIndicesRef s) (isItemLoadedRef s) (frames s) (nextFrameId s)
    (timeouts s) (isScrollingTimer s) (userScrollTimer s) (calls s).

Definition set_userScrollRef (v : bool) (s : State) : State :=
  mkState (items s) (isMountedRef s) (hasDynamicSizeRef s) (rosRef s)
    (scrollOffsetRef s) (prevItemIdxRef s) (prevVStopRef s) (outerRef s)
    (innerRef s) (outerRectRef s) (msDataRef s) v (scrollToRafRef s)
    (stickyIndicesRef s) (isItemLoadedRef s) (frames s) (nextFrameId s)
    (timeouts s) (isScrollingTimer s) (userScrollTimer s) (calls s).

Definition set_scrollToRafRef (v : option nat) (s : State) : State :=
  mkState (items s) (isMountedRef s) (hasDynamicSizeRef s) (rosRef s)
    (scrollOffsetRef s) (prevItemIdxRef s) (prevVStopRef s) (outerRef s)
    (innerRef s) (outerRectRef s) (msDataRef s) (userScrollRef s) v
    (stickyIndicesRef s) (isItemLoadedRef s) (frames s) (nextFrameId s)
    (timeouts s) (isScrollingTimer s) (userScrollTimer s) (calls s).

Definition set_frames (v : list Frame) (s : State) : State :=
  mkState (items s) (isMountedRef s) (hasDynamicSizeRef s) (rosRef s)
    (scrollOffsetRef s) (prevItemIdxRef s) (prevVStopRef s) (outerRef s)
    (innerRef s) (outerRectRef s) (msDataRef s) (userScrollRef s)
    (scrollToRafRef s) (stickyIndicesRef s) (isItemLoadedRef s) v
    (nextFrameId s) (timeouts s) (isScrollingTimer s) (userScrollTimer s)
    (calls s).

Definition set_nextFrameId (v : nat) (s : State) : State :=
  mkState (items s) (isMountedRef s) (hasDynamicSizeRef s) (rosRef s)
    (scrollOffsetRef s) (prevItemIdxRef s) (prevVStopRef s) (outerRef s)
    (innerRef s) (outerRectRef s) (msDataRef s) (userScrollRef s)
    (scrollToRafRef s) (stickyIndicesRef s) (isItemLoadedRef s) (frames s) v
    (timeouts s) (isScrollingTimer s) (userScrollTimer s) (calls s).

Definition set_timeouts (v : list Reissue) (s : State) : State :=
  mkState (items s) (isMountedRef s) (hasDynamicSizeRef s) (rosRef s)
    (scrollOffsetRef s) (prevItemIdxRef s) (prevVStopRef s) (outerRef s)
    (innerRef s) (outerRectRef s) (msDataRef s) (userScrollRef s)
    (scrollToRafRef s) (stickyIndicesRef s) (isItemLoadedRef s) (frames s)
    (nextFrameId s) v (isScrollingTimer s) (userScrollTimer s) (calls s).

Definition set_isScrollingTimer (v : bool) (s : State) : State :=
  mkState (items s) (isMountedRef s) (hasDynamicSizeRef s) (rosRef s)
    (scrollOffsetRef s) (prevItemIdxRef s) (prevVStopRef s) (outerRef s)
    (innerRef s) (outerRectRef s) (msDataRef s) (userScrollRef s)
    (scrollToRafRef s) (stickyIndicesRef s) (isItemLoadedRef s) (frames s)
    (nextFrameId s) (timeouts s) v (userScrollTimer s) (calls s).

Definition set_userScrollTimer (v : bool) (s : State) : State :=
  mkState (items s) (isMountedRef s) (hasDynamicSizeRef s) (rosRef s)
    (scrollOffsetRef s) (prevItemIdxRef s) (prevVStopRef s) (outerRef s)
    (innerRef s) (outerRectRef s) (msDataRef s) (userScrollRef s)
    (scrollToRafRef s) (stickyIndicesRef s) (isItemLoadedRef s) (frames s)
    (nextFrameId s) (timeouts s) (isScrollingTimer s) v (calls s).

Definition set_calls (v : list Call) (s : State) : State :=
  mkState (items s) (isMountedRef s) (hasDynamicSizeRef s) (rosRef s)
    (scrollOffsetRef s) (prevItemIdxRef s) (prevVStopRef s) (outerRef s)
    (innerRef s) (outerRectRef s) (msDataRef s) (userScrollRef s)
    (scrollToRafRef s) (stickyIndicesRef s) (isItemLoadedRef s) (frames s)
    (nextFrameId s) (timeouts s) (isScrollingTimer s) (userScrollTimer s) v.

(** The state of a freshly created hook (no [ssrItemCount]); the two refs
    initialised from the first render's options keep that value. *)
Definition initState (stickies : option (list Z))
    (isItemLoaded : option (Z -> bool)) : State :=
  mkState [] false false [] 0 (-1) None None None (mkRect 0 0) [] true None
    stickies isItemLoaded [] 1 [] false false [].

(** ** Handlers run in a state monad with exceptions *)

Inductive Res (A : Type) :=
| Ok (a : A) (s : State)
| Throw (s : State).
Arguments Throw {A} s.

Definition M (A : Type) := State -> Res A.

Definition ret {A} (a : A) : M A := fun s => Ok a s.
Definition bind {A B} (c : M A) (k : A -> M B) : M B :=
  fun s => match c s with Ok a s' => k a s' | Throw s' => Throw s' end.
Definition get : M State := fun s => Ok s s.
Definition modify (f : State -> State) : M unit := fun s => Ok tt (f s).
Definition throw {A} : M A := fun s => Throw s.
Definition liftO {A} (x : option A) : M A :=
  match x with Some a => ret a | None => throw end.
Definition when (b : bool) (c : M unit) : M unit := if b then c else ret tt.

Definition finalState {A} (r : Res A) : State :=
  match r with Ok _ s => s | Throw s => s end.

Declare Scope engine_scope.
Delimit Scope engine_scope with engine.
Notation "x <- c ;; k" := (bind c (fun x => k))
  (at level 61, c at next level, right associativity) : engine_scope.
Notation "c ;; k" := (bind c (fun _ => k))
  (at level 61, right associativity) : engine_scope.
Local Open Scope engine_scope.

(** The operations that leave the integers. *)
Record FloatOps := mkFloatOps {
  (** [x / 2] *)
  half : Z -> Z;
  (** [scrollOffset * (totalSize / prevTotalSize || 1)] *)
  scaleOffset : Z -> option Z -> option Z -> Z;
  (** [easing(Math.min(elapsed / duration, 1)) * (offset - prevOffset)
      + prevOffset] *)
  easeOffset : Z -> Z -> Z -> Z -> Z
}.

(** [Math.min(elapsed / duration, 1) < 1] *)
Definition timeBelowOne (elapsed duration : Z) : bool :=
  if 0 <? duration then elapsed <? duration
  else if duration <? 0 then duration <? elapsed
  else elapsed <? 0.

Definition isSome {A} (x : option A) : bool :=
  match x with Some _ => true | None => false end.

Definition logCall (c : Call) : M unit :=
  modify (fun s => set_calls (calls s ++ [c]) s).

(** Modelled from the spec: the pairs [[resetIsScrolling,
    cancelResetIsScrolling]] and [[resetUserScroll, cancelResetUserScroll]]
    that [useDebounce] of [./utils] returns; [useDebounce] is not among the
    sources.  The spec: "set true immediately, schedule reset ... after a
    fixed quiet interval (150ms), cancel-and-reschedule on repeated
    triggers".  Only whether a callback is pending is kept; the events
    [EvResetIsScrolling] and [EvResetUserScroll] fire a pending one. *)
Definition resetIsScrolling : M unit := modify (set_isScrollingTimer true).
Definition cancelResetIsScrolling : M unit :=
  modify (set_isScrollingTimer false).
Definition resetUserScroll : M unit := modify (set_userScrollTimer true).
Definition cancelResetUserScroll : M unit :=
  modify (set_userScrollTimer false).

(** [isItemLoadedRef.current && isItemLoadedRef.current(page)] *)
Definition pageLoaded (s : State) (page : Z) : bool :=
  match isItemLoadedRef s with
  | Some f => f page
  | None => false
  end.

(** [style[marginKey] = mg; style[sizeKey] = sz] *)
Definition restyle (o : Options) (st : Style) (mg sz : Z) : Style :=
  if horizontal o
  then mkStyle (marginTop st) (Some mg) (height st) (Some sz)
  else mkStyle (Some mg) (marginLeft st) (Some sz) (width_ st).

(** [style[marginKey]] and [style[sizeKey]] *)
Definition marginOf (o : Options) (st : Style) : option Z :=
  if horizontal o then marginLeft st else marginTop st.

Definition sizeStyleOf (o : Options) (st : Style) : option Z :=
  if horizontal o then width_ st else height st.

(** [innerRef.current.style[marginKey] = ...; style[sizeKey] = ...] *)
Definition setInnerStyle (o : Options) (mg sz : Z) : M unit :=
  modify (fun s =>
    match innerRef s with
    | None => s
    | Some st => set_innerRef (Some (restyle o st mg sz)) s
    end).

Definition scrollPos (o : Options) (el : Outer) : Z :=
  if horizontal o then scrollLeft el else scrollTop el.

(** [scrollTo]: [if (outerRef.current) outerRef.current[scrollKey] = offset] *)
Definition scrollTo (o : Options) (offset : Z) : M unit :=
  modify (fun s =>
    match outerRef s with
    | None => s
    | Some el =>
        set_outerRef
          (Some (if horizontal o then mkOuter (scrollTop el) offset
                 else mkOuter offset (scrollLeft el)))
          s
    end).

(** [measureItems] *)
Definition measureItems (o : Options) (useCache : bool) : M unit :=
  modify (fun s =>
    set_msDataRef (measureStore o (outerRectRef s) useCache (msDataRef s)) s).

(** The items pushed by
    [for (let i = oStart; i <= oStop; i += 1) nextItems.push(...)]. *)
Fixpoint renderRange (ms : Store) (w : Z) (stickies : list Z)
    (scrollOffset : Z) (isScrolling uxScrolling : bool) (mg : Z)
    (k : nat) (i : Z) : option (list Item) :=
  match k with
  | O => Some []
  | S k' =>
      letO m := JsArray.get ms i in
      letO rest := renderRange ms w stickies scrollOffset isScrolling
                     uxScrolling mg k' (i + 1) in
      Some (mkItem i (m_start m - mg) (m_size m) w uxScrolling
              (existsb (Z.eqb i) stickies)
              (Some (mkProbe i (m_start m) (m_size m) scrollOffset
                       isScrolling uxScrolling))
            :: rest)
  end.

(** The sticky item to prepend, if any (lines 384-411): [None] when the
    code throws, [Some None] when nothing is prepended. *)
Definition stickyItem (ms : Store) (w : Z) (stickies : list Z)
    (uxScrolling : bool) (c : CalcData) : option (option Item) :=
  match stickies with
  | [] => Some None
  | _ =>
      letO j := findNearestBinarySearch
                  (fun idx => JsArray.get (map Some stickies) idx)
                  (vStart c) 0 (Z.of_nat (length stickies) - 1) in
      match JsArray.get (map Some stickies) j with
      | None => Some None
      | Some stickyIdx =>
          if stickyIdx <? oStart c then
            letO m := JsArray.get ms stickyIdx in
            Some (Some (mkItem stickyIdx 0 (m_size m) w uxScrolling true None))
          else Some None
      end
  end.

(** ** The handlers of the hook

    A handler runs with the options of the render that created it; the
    callbacks the hook keeps in [useLatest] refs are taken from the same
    options. *)

Section Engine.

(** [shouldUpdate(prevItems, nextItems, { measureRef: true })] of
    [./utils], which is not among the sources and which the spec does not
    describe: any function. *)
Variable shouldUpdate : list Item -> list Item -> bool.

Variable fp : FloatOps.

(** [setItems((prevItems) => shouldUpdate(...) ? nextItems : prevItems)] *)
Definition publishItems (next : list Item) : M unit :=
  modify (fun s =>
    set_items (if shouldUpdate (items s) next then next else items s) s).

Definition optEqb (a : Z) (b : option Z) : bool :=
  match b with Some b' => a =? b' | None => false end.

(** [handleScroll] (lines 304-466).  [Math.floor((vStop + 1) /
    loadMoreCount)] is the quotient of [Z] for a page size other than 0. *)
Definition handleScroll (o : Options) (scrollOffset : Z)
    (isScrolling uxScrolling : bool) : M unit :=
  s0 <- get ;;
  if negb (isSome (innerRef s0)) then ret tt else
  when (loadMore o && negb (isMountedRef s0) && negb (pageLoaded s0 0))
    (logCall (CallLoadMore
       (mkLoadMore 0 (loadMoreCount o - 1) 0 scrollOffset
          (userScrollRef s0)))) ;;
  if (itemCount o =? 0)%nat then modify (set_items []) else
  c <- liftO (getCalcData o (hasDynamicSizeRef s0) (outerRectRef s0)
                (msDataRef s0) scrollOffset) ;;
  setInnerStyle o (margin c) (innerSize c) ;;
  let stickies :=
    match stickyIndicesRef s0 with Some l => l | None => [] end in
  let w := r_width (outerRectRef s0) in
  regular <- liftO (renderRange (msDataRef s0) w stickies scrollOffset
                      isScrolling uxScrolling (margin c)
                      (Z.to_nat (oStop c - oStart c + 1)) (oStart c)) ;;
  sticky <- liftO (stickyItem (msDataRef s0) w stickies uxScrolling c) ;;
  match sticky with
  | Some it =>
      setInnerStyle o (margin c - size it) (innerSize c + size it) ;;
      publishItems (it :: regular)
  | None => publishItems regular
  end ;;
  if negb isScrolling then ret tt else
  s1 <- get ;;
  when (onScroll o)
    (logCall (CallOnScroll
       (mkScrollInfo (oStart c) (oStop c) (vStart c) (vStop c) scrollOffset
          (scrollOffsetRef s1 <? scrollOffset) (userScrollRef s1)))) ;;
  let loadIndex := (vStop c + 1) / loadMoreCount o in
  let startIndex := loadIndex * loadMoreCount o in
  when (loadMore o && negb (optEqb (vStop c) (prevVStopRef s1))
        && negb (pageLoaded s1 loadIndex))
    (logCall (CallLoadMore
       (mkLoadMore startIndex (startIndex + loadMoreCount o - 1) loadIndex
          scrollOffset (userScrollRef s1)))) ;;
  modify (set_prevVStopRef (Some (vStop c))) ;;
  when uxScrolling resetIsScrolling ;;
  when (negb (userScrollRef s1)) resetUserScroll.

Definition runUser (cb : option nat) : M unit :=
  match cb with
  | Some id => logCall (CallComplete id)
  | None => ret tt
  end.

(** [if (cb) cb()], for the two kinds of completion callback. *)
Definition runCallback (cb : option Callback) : M unit :=
  match cb with
  | None => ret tt
  | Some (CbUser id) => logCall (CallComplete id)
  | Some (CbAfterItem o val cb') =>
      s <- get ;;
      if negb (hasDynamicSizeRef s) then runUser cb'
      else modify (fun s =>
             set_timeouts (timeouts s ++ [mkReissue o val cb']) s)
  end.

(** [scrollToRafRef.current = requestAnimationFrame(scroll)] *)
Definition requestFrame (f : nat -> Frame) : M unit :=
  modify (fun s =>
    let id := nextFrameId s in
    set_scrollToRafRef (Some id)
      (set_nextFrameId (S id) (set_frames (frames s ++ [f id]) s))).

Definition asNumber (v : JsVal) : option Z :=
  if isNumber v then match v with JNum z => Some z | _ => None end
  else None.

Definition truthy (b : option bool) : bool :=
  match b with Some true => true | _ => false end.

(** [scrollToOffset] (lines 187-222); [now] is the clock read by
    [now()]. *)
Definition scrollToOffset (o : Options) (val : ScrollToArg)
    (cb : option Callback) (now : Z) : M unit :=
  s <- get ;;
  let prevOffset := scrollOffsetRef s in
  let (offset, smooth) :=
    match val with
    | OffsetNum n => (JNum n, None)
    | OffsetOpts v sm => (v, sm)
    end in
  match asNumber offset with
  | None => ret tt
  | Some offset =>
      modify (set_userScrollRef false) ;;
      if negb (truthy smooth) then
        scrollTo o offset ;;
        runCallback cb
      else
        requestFrame (fun id => mkFrame id o now offset prevOffset cb)
  end.

(** One run of the closure [scroll] of a smooth [scrollToOffset]. *)
Definition runFrame (fr : Frame) (now : Z) : M unit :=
  let o := fr_options fr in
  let elapsed := now - fr_start fr in
  scrollTo o (easeOffset fp elapsed (scrollDuration o) (fr_offset fr)
                (fr_prevOffset fr)) ;;
  if timeBelowOne elapsed (scrollDuration o) then
    requestFrame (fun id =>
      mkFrame id o (fr_start fr) (fr_offset fr) (fr_prevOffset fr)
        (fr_cb fr))
  else runCallback (fr_cb fr).

(** [scrollToItem] (lines 224-292). *)
Definition scrollToItem (o : Options) (val : ScrollToItemArg)
    (cb : option nat) (now : Z) : M unit :=
  let '(idx, align, smooth) :=
    match val with
    | ItemNum n => (JNum n, AlignAuto, None)
    | ItemOpts v a sm =>
        (v, match a with Some a' => a' | None => AlignAuto end, sm)
    end in
  match asNumber idx with
  | None => ret tt
  | Some idx =>
      s0 <- get ;;
      when (hasDynamicSizeRef s0) (measureItems o true) ;;
      s <- get ;;
      let ms := msDataRef s in
      match JsArray.get ms (Z.max 0 (Z.min idx (JsArray.len ms - 1))) with
      | None => ret tt
      | Some m =>
          let scrollOffset := scrollOffsetRef s in
          mL <- liftO (JsArray.get ms (JsArray.len ms - 1)) ;;
          let totalSize := m_end mL in
          let outerSize := sizeOf o (outerRectRef s) in
          if totalSize <=? outerSize then runUser cb else
          let endPos := m_start m - outerSize + m_size m in
          let target :=
            match align with
            | AlignStart =>
                if totalSize - m_start m <=? outerSize
                then totalSize - outerSize else m_start m
            | AlignCenter =>
                let to := m_start m - half fp outerSize
                          + half fp (m_size m) in
                if totalSize - to <=? outerSize
                then totalSize - outerSize else to
            | AlignEnd =>
                if m_start m + m_size m <=? outerSize then 0 else endPos
            | AlignAuto =>
                if m_start m <? scrollOffset then m_start m
                else if scrollOffset + outerSize <? m_end m then endPos
                else scrollOffset
            end in
          if hasDynamicSizeRef s
             && (Z.abs (target - scrollOffsetRef s) <=? 1)
          then runUser cb
          else scrollToOffset o (OffsetOpts (JNum target) smooth)
                 (Some (CbAfterItem o val cb)) now
      end
  end.

Definition rosDelete (target : nat) (s : State) : State :=
  set_rosRef
    (filter (fun p => negb (Nat.eqb (fst p) target)) (rosRef s)) s.

Definition rosSet (target ro : nat) (s : State) : State :=
  set_rosRef ((target, ro) :: rosRef (rosDelete target s)) s.

(** The [ResizeObserver] callback created by an item's [measureRef]
    (lines 352-379), reporting [measuredSize] for [target]. *)
Definition probe (o : Options) (env : ProbeEnv) (target ro : nat)
    (measuredSize : Z) : M unit :=
  if measuredSize =? 0 then modify (rosDelete target) else
  s <- get ;;
  let i := pe_i env in
  let prevEnd := prevEndOf (msDataRef s) i in
  when (negb (measuredSize =? pe_size env)
        || negb (pe_start env =? prevEnd))
    (when ((i <? prevItemIdxRef s)
           && (pe_start env <? pe_scrollOffset env))
       (scrollTo o (pe_scrollOffset env + measuredSize - pe_size env)) ;;
     modify (fun s =>
       set_msDataRef
         (JsArray.set (msDataRef s) i
            (getMeasure (msDataRef s) i measuredSize)) s) ;;
     handleScroll o (pe_scrollOffset env) (pe_isScrolling env)
       (pe_uxScrolling env) ;;
     modify (set_hasDynamicSizeRef true)) ;;
  modify (set_prevItemIdxRef i) ;;
  modify (rosSet target ro).

Definition totalEnd (ms : Store) : option Z :=
  option_map m_end (JsArray.get ms (JsArray.len ms - 1)).

(** The callback given to [useResizeEffect] (lines 470-492). *)
Definition outerResized (o : Options) (rect : Rect) : M unit :=
  s <- get ;;
  let isSameWidth := r_width (outerRectRef s) =? r_width rect in
  let isSameSize :=
    isSameWidth && (r_height (outerRectRef s) =? r_height rect) in
  let prevTotalSize := totalEnd (msDataRef s) in
  modify (set_outerRectRef rect) ;;
  measureItems o (hasDynamicSizeRef s) ;;
  handleScroll o (scrollOffsetRef s) false false ;;
  s1 <- get ;;
  when (negb (hasDynamicSizeRef s1) && negb isSameWidth)
    (scrollTo o (scaleOffset fp (scrollOffsetRef s1)
                   (totalEnd (msDataRef s1)) prevTotalSize)) ;;
  when (isMountedRef s1 && negb isSameSize && onResize o)
    (logCall (CallOnResize rect)) ;;
  modify (set_isMountedRef true).

(** [scrollHandler] (lines 501-514), for a scroll event of the container. *)
Definition scrollHandler (o : Options) : M unit :=
  s <- get ;;
  match outerRef s with
  | None => ret tt
  | Some el =>
      let scrollOffset := scrollPos o el in
      if scrollOffset =? scrollOffsetRef s then ret tt else
      let uxScrolling :=
        match useIsScrolling o with
        | UisFn f => f (Z.abs (scrollOffset - scrollOffsetRef s))
        | UisBool b => b
        | UisAbsent => false
        end in
      handleScroll o scrollOffset true uxScrolling ;;
      modify (set_scrollOffsetRef scrollOffset)
  end.

(** The cleanup of the layout effect (lines 520-532). *)
Definition teardown : M unit :=
  cancelResetIsScrolling ;;
  cancelResetUserScroll ;;
  modify (fun s =>
    match scrollToRafRef s with
    | Some id =>
        set_scrollToRafRef None
          (set_frames
             (filter (fun f => negb (Nat.eqb (fr_id f) id)) (frames s)) s)
    | None => s
    end) ;;
  modify (set_rosRef []).

(** What can happen to a hook. *)
Inductive Event :=
| EvMount
| EvUnmount
| EvScrollTo (o : Options) (val : ScrollToArg) (cb : option nat) (now : Z)
| EvScrollToItem (o : Options) (val : ScrollToItemArg) (cb : option nat)
    (now : Z)
| EvUserScroll (o : Options) (pos : Z)
| EvScroll (o : Options)
| EvResize (o : Options) (rect : Rect)
| EvProbe (o : Options) (env : ProbeEnv) (target ro : nat) (measured : Z)
| EvFrame (id : nat) (now : Z)
| EvTimeout (k : nat) (now : Z)
| EvResetIsScrolling (o : Options)
| EvResetUserScroll
| EvTeardown.

Definition removeNth {A} (k : nat) (l : list A) : list A :=
  firstn k l ++ skipn (S k) l.

Definition step (e : Event) : M unit :=
  match e with
  | EvMount =>
      modify (fun s =>
        set_outerRef (Some (mkOuter 0 0))
          (set_innerRef (Some (mkStyle None None None None)) s))
  | EvUnmount =>
      modify (fun s => set_outerRef None (set_innerRef None s))
  | EvScrollTo o val cb now =>
      scrollToOffset o val (option_map CbUser cb) now
  | EvScrollToItem o val cb now => scrollToItem o val cb now
  | EvUserScroll o pos => scrollTo o pos
  | EvScroll o => scrollHandler o
  | EvResize o rect => outerResized o rect
  | EvProbe o env target ro measured => probe o env target ro measured
  | EvFrame id now =>
      s <- get ;;
      match find (fun f => Nat.eqb (fr_id f) id) (frames s) with
      | Some fr =>
          modify (fun s =>
            set_frames
              (filter (fun f => negb (Nat.eqb (fr_id f) id)) (frames s))
              s) ;;
          runFrame fr now
      | None => ret tt
      end
  | EvTimeout k now =>
      s <- get ;;
      match nth_error (timeouts s) k with
      | Some r =>
          modify (fun s => set_timeouts (removeNth k (timeouts s)) s) ;;
          scrollToItem (ri_options r) (ri_val r) (ri_cb r) now
      | None => ret tt
      end
  | EvResetIsScrolling o =>
      s <- get ;;
      if isScrollingTimer s then
        modify (set_isScrollingTimer false) ;;
        handleScroll o (scrollOffsetRef s) false false
      else ret tt
  | EvResetUserScroll =>
      s <- get ;;
      if userScrollTimer s then
        modify (set_userScrollTimer false) ;;
        modify (set_userScrollRef true)
      else ret tt
  | EvTeardown => teardown
  end.

(** The state after an event, whether or not its handler threw. *)
Definition after (e : Event) (s : State) : State := finalState (step e s).

Definition run (es : list Event) (s : State) : State :=
  fold_left (fun s e => after e s) es s.

End Engine.

(** * The vocabulary of the properties *)

(** ** Stores *)

(** The size [measureItems] gives to entry [i]: the cached one when
    [useCache] is set and the entry exists, the estimate otherwise. *)
Definition rebuiltSize (o : Options) (rect : Rect) (useCache : bool)
    (old : Store) (i : Z) : Z :=
  match (if useCache then JsArray.get old i else None) with
  | Some m => m_size m
  | None => getItemSize o rect i
  end.

(** The sum of the sizes of entries [0 .. n-1]. *)
Fixpoint sizesBefore (ms : Store) (n : nat) : Z :=
  match n with
  | O => 0
  | S n' =>
      sizesBefore ms n'
      + match JsArray.get ms (Z.of_nat n') with
        | Some m => m_size m
        | None => 0
        end
  end.

(** Every entry is present, with a start and a size that are not negative
    and an end that is their sum. *)
Definition store_ok (ms : Store) : Prop :=
  forall i, 0 <= i < JsArray.len ms ->
    exists m, JsArray.get ms i = Some m /\ 0 <= m_start m /\ 0 <= m_size m
              /\ m_end m = m_start m + m_size m.

(** A decidable form of [store_ok]. *)
Definition store_okb (ms : Store) : bool :=
  forallb (fun e => match e with
                    | Some m => (0 <=? m_start m) && (0 <=? m_size m)
                                && (m_end m =? m_start m + m_size m)
                    | None => false
                    end) ms.

(** Every entry's start is the end of its predecessor (0 for the first). *)
Definition store_chained (ms : Store) : Prop :=
  forall i m, JsArray.get ms i = Some m ->
    m_start m = prevEndOf ms i /\ m_end m = m_start m + m_size m.

(** [msData[v + 1]?.start ?? 0] *)
Definition nextStart (ms : Store) (v : Z) : Z :=
  match JsArray.get ms (v + 1) with
  | Some m' => m_start m'
  | None => 0
  end.

(** ** Runs of the handlers *)

(** Some output is rendered: there is overscan, or the viewport reaches past
    the start of the first item. *)
Definition rangeNotEmpty (o : Options) (rect : Rect) (ms : Store)
    (scrollOffset : Z) : Prop :=
  0 < overscanCount o
  \/ exists m, JsArray.get ms 0 = Some m
               /\ m_start m < scrollOffset + sizeOf o rect.

(** The load request of the first run (lines 308-319), if any. *)
Definition firstLoadRequest (o : Options) (s : State) (scrollOffset : Z)
  : list Call :=
  if loadMore o && negb (isMountedRef s) && negb (pageLoaded s 0)
  then [CallLoadMore
          (mkLoadMore 0 (loadMoreCount o - 1) 0 scrollOffset
             (userScrollRef s))]
  else [].

Definition scrollNotice (o : Options) (s : State) (c : CalcData)
    (scrollOffset : Z) : list Call :=
  if onScroll o
  then [CallOnScroll
          (mkScrollInfo (oStart c) (oStop c) (vStart c) (vStop c)
             scrollOffset (scrollOffsetRef s <? scrollOffset)
             (userScrollRef s))]
  else [].

(** The load request of a scroll-driven run (lines 432-446), if any, for a
    page size other than 0. *)
Definition loadRequest (o : Options) (s : State) (c : CalcData)
    (scrollOffset : Z) : list Call :=
  let loadIndex := (vStop c + 1) / loadMoreCount o in
  let startIndex := loadIndex * loadMoreCount o in
  if loadMore o && negb (optEqb (vStop c) (prevVStopRef s))
     && negb (pageLoaded s loadIndex)
  then [CallLoadMore
          (mkLoadMore startIndex (startIndex + loadMoreCount o - 1)
             loadIndex scrollOffset (userScrollRef s))]
  else [].

(** [c] ends, normally or by a throw, in a state with the same [proj]. *)
Definition keeps {T} (proj : State -> T) {A} (c : M A) : Prop :=
  forall s, proj (finalState (c s)) = proj s.

(** ** Concrete set-ups *)

(** Stand-ins for the two parameters of the engine, for concrete runs. *)
Definition alwaysUpdate (_ _ : list Item) : bool := true.

Definition intFloat : FloatOps :=
  mkFloatOps (fun x => x / 2) (fun x _ _ => x) (fun _ _ offset _ => offset).

(** 1000 items of fixed size 100, overscan 1, in a viewport of height 500. *)
Definition scenarioOptions : Options := fixedOptions 1000 100 1.

(** Three items of sizes 10, 100 and 10. *)
Definition unevenOptions : Options :=
  mkOptions 3 (SizeFn (fun i _ => Some (if i =? 1 then 100 else 10)))
    false 1 UisAbsent 500 15 false false false.

Definition unevenStore : Store :=
  measureStore unevenOptions (mkRect 0 0) false [].

(** 40 items of size 100 with a loader and pages of 15. *)
Definition loaderOptions : Options :=
  mkOptions 40 (SizeNum 100) false 1 UisAbsent 500 15 true false false.

(** The hook after mounting in a viewport of height 500 and a scroll to
    [offset]. *)
Definition scrolledTo (offset : Z) : State :=
  run alwaysUpdate intFloat
    [EvMount; EvResize loaderOptions (mkRect 300 500);
     EvUserScroll loaderOptions offset; EvScroll loaderOptions]
    (initState None None).

(** 120 items of size 100, overscan 1, sticky indices 0, 50 and 100, mounted
    in a viewport of height 500. *)
Definition stickyOptions : Options := fixedOptions 120 100 1.

Definition stickyMounted : State :=
  run alwaysUpdate intFloat
    [EvMount; EvResize stickyOptions (mkRect 300 500)]
    (initState (Some [0; 50; 100]) None).

(** ** Further vocabulary *)

(** The integers [i, i + 1, ..., i + k - 1]. *)
Fixpoint zrange (i : Z) (k : nat) : list Z :=
  match k with
  | O => []
  | S k' => i :: zrange (i + 1) k'
  end.

(** The state a probe's callback hands to [handleScroll] when the
    measurement disagrees with the recorded geometry (lines 366-369): the
    compensating scroll, if any, then the write of the entry. *)
Definition probeWritten (o : Options) (env : ProbeEnv) (measured : Z)
    (s : State) : State :=
  let s1 :=
    finalState
      (when ((pe_i env <? prevItemIdxRef s)
             && (pe_start env <? pe_scrollOffset env))
         (scrollTo o (pe_scrollOffset env + measured - pe_size env)) s) in
  set_msDataRef
    (JsArray.set (msDataRef s1) (pe_i env)
       (getMeasure (msDataRef s1) (pe_i env) measured)) s1.

(** The rectangles passed to [onResize], oldest first. *)
Definition resizeNotices (cs : list Call) : list Rect :=
  flat_map (fun c => match c with CallOnResize r => [r] | _ => [] end) cs.

(** The offset [scrollToItem] computes for an item (lines 251-273), from the
    item's entry, the total size, the viewport size and the recorded
    offset. *)
Definition alignTarget (fp : FloatOps) (align : Align) (m : Measure)
    (totalSize outerSize scrollOffset : Z) : Z :=
  let endPos := m_start m - outerSize + m_size m in
  match align with
  | AlignStart =>
      if totalSize - m_start m <=? outerSize
      then totalSize - outerSize else m_start m
  | AlignCenter =>
      let to := m_start m - half fp outerSize + half fp (m_size m) in
      if totalSize - to <=? outerSize then totalSize - outerSize else to
  | AlignEnd =>
      if m_start m + m_size m <=? outerSize then 0 else endPos
  | AlignAuto =>
      if m_start m <? scrollOffset then m_start m
      else if scrollOffset + outerSize <? m_end m then endPos
      else scrollOffset
  end.

(** [align = Align.auto] when the option is absent. *)
Definition alignOf (a : option Align) : Align :=
  match a with Some a' => a' | None => AlignAuto end.

(** [Math.max(0, Math.min(index, msData.length - 1))] *)
Definition clampIndex (ms : Store) (idx : Z) : Z :=
  Z.max 0 (Z.min idx (JsArray.len ms - 1)).

(** The store [scrollToItem] works on: rebuilt with the cache once a dynamic
    size has been seen (line 234). *)
Definition freshened (o : Options) (s : State) : State :=
  if hasDynamicSizeRef s
  then set_msDataRef
         (measureStore o (outerRectRef s) true (msDataRef s)) s
  else s.

(** [if (cb) cb()], as a list of invocations. *)
Definition completion (cb : option nat) : list Call :=
  match cb with Some id => [CallComplete id] | None => [] end.

(** [ssrItemCount]: absent, a number, or a pair [[idx, len]]. *)
Inductive SsrItemCount :=
| SsrAbsent
| SsrNum (n : Z)
| SsrRange (idx len : Z).

(** The item [getInitItems] stores at index [i] (lines 40-46): no layout is
    known, so its start and width are 0, its size is the fixed size or
    [itemSize(i, 0) ?? DEFAULT_ITEM_SIZE], and its [measureRef] is inert. *)
Definition ssrItem (o : Options) (i : Z) : Item :=
  mkItem i 0
    (match itemSize o with
     | SizeNum s => s
     | SizeFn f =>
         match f i 0 with
         | Some s => s
         | None => DEFAULT_ITEM_SIZE
         end
     end)
    0 false false None.

(** [for (let i = idx; i <= len; i += 1) ssrItems[i] = ...], [k] turns from
    index [i]. *)
Fixpoint ssrLoop (o : Options) (k : nat) (i : Z) (a : JsArray.t Item)
  : JsArray.t Item :=
  match k with
  | O => a
  | S k' => ssrLoop o k' (i + 1) (JsArray.set a i (ssrItem o i))
  end.

(** [getInitItems] (lines 31-49): the initial value of [items]. *)
Definition getInitItems (o : Options) (ssrItemCount : SsrItemCount)
  : JsArray.t Item :=
  match ssrItemCount with
  | SsrAbsent => []
  | SsrNum n =>
      if n =? 0 then [] else ssrLoop o (Z.to_nat (n - 1 - 0 + 1)) 0 []
  | SsrRange idx len => ssrLoop o (Z.to_nat (len - idx + 1)) idx []
  end.

(** * Properties *)

Unset Implicit Arguments.

(** ** JavaScript arrays *)

Module JsArrayFacts.
Import JsArray.

Lemma get_neg {A} (a : t A) i : i < 0 -> get a i = None.
Proof. intros H. unfold get. apply Z.ltb_lt in H. now rewrite H. Qed.

Lemma get_past {A} (a : t A) i : len a <= i -> get a i = None.
Proof.
  intros H. unfold get, len in *.
  destruct (i <? 0); [reflexivity|].
  assert (E : nth_error a (Z.to_nat i) = None)
    by (apply nth_error_None; lia).
  now rewrite E.
Qed.

Lemma get_some_range {A} (a : t A) i x :
  get a i = Some x -> 0 <= i < len a.
Proof.
  intros H.
  destruct (Z_lt_dec i 0) as [L|L]; [now rewrite get_neg in H|].
  destruct (Z_le_dec (len a) i) as [G|G]; [now rewrite get_past in H|].
  lia.
Qed.

Lemma get_nth {A} (a : t A) (n : nat) :
  get a (Z.of_nat n) = match nth_error a n with Some e => e | None => None end.
Proof.
  unfold get. destruct (Z.ltb_spec (Z.of_nat n) 0); [lia|].
  now rewrite Nat2Z.id.
Qed.

Lemma length_set {A} (a : t A) i v :
  i < len a -> length (set a i v) = length a.
Proof.
  intros H. unfold set, len in *.
  destruct (Z.ltb_spec i 0); [reflexivity|].
  destruct (Nat.ltb_spec (Z.to_nat i) (length a)); [|lia].
  rewrite length_app, length_firstn. cbn [length]. rewrite length_skipn. lia.
Qed.

Lemma get_set_same {A} (a : t A) i v :
  0 <= i < len a -> get (set a i v) i = Some v.
Proof.
  intros H. unfold set, get, len in *.
  destruct (Z.ltb_spec i 0); [lia|].
  destruct (Nat.ltb_spec (Z.to_nat i) (length a)); [|lia].
  rewrite nth_error_app2; rewrite length_firstn; [|lia].
  replace (Z.to_nat i - Init.Nat.min (Z.to_nat i) (length a))%nat
    with 0%nat by lia.
  reflexivity.
Qed.

Lemma get_set_other {A} (a : t A) i j v :
  i < len a -> i <> j -> get (set a i v) j = get a j.
Proof.
  intros H N. unfold set, get, len in *.
  destruct (Z.ltb_spec i 0); [reflexivity|].
  destruct (Nat.ltb_spec (Z.to_nat i) (length a)); [|lia].
  destruct (Z.ltb_spec j 0); [reflexivity|].
  destruct (Nat.lt_ge_cases (Z.to_nat j) (Z.to_nat i)) as [L|G].
  - rewrite nth_error_app1 by (rewrite length_firstn; lia).
    now rewrite nth_error_firstn, (proj2 (Nat.ltb_lt _ _) L).
  - rewrite nth_error_app2 by (rewrite length_firstn; lia).
    rewrite length_firstn.
    replace (Z.to_nat j - Init.Nat.min (Z.to_nat i) (length a))%nat
      with (S (Z.to_nat j - S (Z.to_nat i)))%nat by lia.
    cbn [nth_error]. rewrite nth_error_skipn.
    now replace (S (Z.to_nat i) + (Z.to_nat j - S (Z.to_nat i)))%nat
      with (Z.to_nat j) by lia.
Qed.

Lemma length_resize {A} (a : t A) n : length (resize a n) = n.
Proof.
  unfold resize. rewrite length_app, length_firstn, repeat_length. lia.
Qed.

Lemma get_resize {A} (a : t A) n i :
  i < Z.of_nat n -> get (resize a n) i = get a i.
Proof.
  intros H. unfold resize, get.
  destruct (Z.ltb_spec i 0); [reflexivity|].
  destruct (Nat.lt_ge_cases (Z.to_nat i) (length a)) as [L|G].
  - rewrite nth_error_app1 by (rewrite length_firstn; lia).
    rewrite nth_error_firstn.
    now destruct (Nat.ltb_spec (Z.to_nat i) n); [|lia].
  - rewrite nth_error_app2 by (rewrite length_firstn; lia).
    rewrite (proj2 (nth_error_None a (Z.to_nat i)) G).
    destruct (nth_error (repeat None (n - length a)) _) as [e|] eqn:E;
      [|reflexivity].
    apply nth_error_In, repeat_spec in E. now subst.
Qed.

End JsArrayFacts.
Import JsArrayFacts.

(** A dense list read as an array. *)
Lemma get_map_Some {A} (l : list A) (d : A) i :
  0 <= i < Z.of_nat (length l) ->
  JsArray.get (map Some l) i = Some (nth (Z.to_nat i) l d).
Proof.
  intros H. unfold JsArray.get. destruct (Z.ltb_spec i 0); [lia|].
  rewrite nth_error_map, (nth_error_nth' l d) by lia. reflexivity.
Qed.

(** ** Measurement store *)

Section MeasureFacts.
Variables (o : Options) (rect : Rect) (useCache : bool).

Lemma measureLoop_spec k : forall i a,
  0 <= i -> i + Z.of_nat k <= JsArray.len a ->
  let a' := measureLoop o rect useCache k i a in
  length a' = length a /\
  (forall j, j < i \/ i + Z.of_nat k <= j ->
             JsArray.get a' j = JsArray.get a j) /\
  (forall j, i <= j < i + Z.of_nat k ->
     JsArray.get a' j =
     Some (getMeasure a' j (rebuiltSize o rect useCache a j))).
Proof.
  induction k as [|k IH]; intros i a Hi Hk; cbn [measureLoop].
  - cbv zeta. repeat split; intros; try reflexivity; lia.
  - cbv zeta. set (a1 := JsArray.set a i _).
    assert (L1 : length a1 = length a)
      by (apply length_set; lia).
    assert (R1 : i + 1 + Z.of_nat k <= JsArray.len a1)
      by (unfold JsArray.len in *; lia).
    specialize (IH (i + 1) a1 ltac:(lia) R1). cbv zeta in IH.
    destruct IH as (HL & Hout & Hin). repeat split.
    + congruence.
    + intros j Hj. rewrite Hout by lia.
      apply get_set_other; lia.
    + intros j Hj. destruct (Z.eq_dec j i) as [->|N].
      * rewrite Hout by lia. unfold a1.
        rewrite get_set_same by lia.
        unfold getMeasure, prevEndOf. rewrite Hout by lia.
        unfold a1. rewrite get_set_other by lia. reflexivity.
      * rewrite Hin by lia. unfold rebuiltSize, a1.
        rewrite get_set_other by lia. reflexivity.
Qed.

Lemma measureStore_spec (old : Store) :
  let ms := measureStore o rect useCache old in
  length ms = itemCount o /\
  forall j, 0 <= j < Z.of_nat (itemCount o) ->
    JsArray.get ms j =
    Some (getMeasure ms j (rebuiltSize o rect useCache old j)).
Proof.
  unfold measureStore.
  assert (R : 0 + Z.of_nat (itemCount o)
              <= JsArray.len (JsArray.resize old (itemCount o)))
    by (unfold JsArray.len; rewrite length_resize; lia).
  pose proof (measureLoop_spec (itemCount o) 0
                (JsArray.resize old (itemCount o)) ltac:(lia) R) as S.
  cbv zeta in S. destruct S as (HL & _ & Hin).
  rewrite length_resize in HL. split; [exact HL|].
  intros j Hj. rewrite Hin by lia. unfold rebuiltSize.
  now rewrite get_resize by lia.
Qed.

Lemma measureStore_chained (old : Store) :
  store_chained (measureStore o rect useCache old).
Proof.
  intros i m H.
  pose proof (measureStore_spec old) as S. cbv zeta in S.
  destruct S as (HL & Hin).
  pose proof (get_some_range _ _ _ H) as R. unfold JsArray.len in R.
  rewrite HL in R. rewrite Hin in H by lia.
  injection H as <-. cbn. split; reflexivity.
Qed.

End MeasureFacts.

Lemma chained_start (ms : Store) :
  store_chained ms ->
  (forall i, 0 <= i < JsArray.len ms -> JsArray.get ms i <> None) ->
  forall n m, JsArray.get ms (Z.of_nat n) = Some m ->
    m_start m = sizesBefore ms n.
Proof.
  intros Hc Hfull n. induction n as [|n IH]; intros m H.
  - destruct (Hc _ _ H) as (Hs & _). rewrite Hs. unfold prevEndOf.
    now rewrite get_neg by lia.
  - destruct (Hc _ _ H) as (Hs & _).
    pose proof (get_some_range _ _ _ H) as R.
    destruct (JsArray.get ms (Z.of_nat n)) as [p|] eqn:E;
      [|exfalso; apply (Hfull (Z.of_nat n)); [lia|exact E]].
    cbn [sizesBefore]. rewrite E, <- (IH p eq_refl).
    destruct (Hc _ _ E) as (_ & He).
    rewrite Hs. unfold prevEndOf.
    replace (Z.of_nat (S n) - 1) with (Z.of_nat n) by lia.
    rewrite E. exact He.
Qed.

Lemma sizesBefore_const (ms : Store) (s : Z) (n : nat) :
  (forall i m, 0 <= i < Z.of_nat n -> JsArray.get ms i = Some m ->
               m_size m = s) ->
  (forall i, 0 <= i < Z.of_nat n -> JsArray.get ms i <> None) ->
  sizesBefore ms n = Z.of_nat n * s.
Proof.
  induction n as [|n IH]; intros Hs Hf; [reflexivity|].
  cbn [sizesBefore]. rewrite IH.
  - destruct (JsArray.get ms (Z.of_nat n)) as [m|] eqn:E.
    + rewrite (Hs (Z.of_nat n) m); [lia | lia | exact E].
    + exfalso. apply (Hf (Z.of_nat n)); [lia | exact E].
  - intros i m Hi. apply Hs. lia.
  - intros i Hi. apply Hf. lia.
Qed.

Lemma sizesBefore_nonneg (ms : Store) (n : nat) :
  (forall i m, JsArray.get ms i = Some m -> 0 <= m_size m) ->
  0 <= sizesBefore ms n.
Proof.
  intros H. induction n as [|n IH]; cbn [sizesBefore]; [lia|].
  destruct (JsArray.get ms (Z.of_nat n)) as [m|] eqn:E; [|lia].
  specialize (H _ _ E). lia.
Qed.

Lemma measureStore_full o rect useCache old i :
  0 <= i < JsArray.len (measureStore o rect useCache old) ->
  JsArray.get (measureStore o rect useCache old) i <> None.
Proof.
  intros R. pose proof (measureStore_spec o rect useCache old) as S.
  cbv zeta in S. destruct S as (HL & Hin). unfold JsArray.len in R.
  rewrite Hin by lia. discriminate.
Qed.

(** A rebuild from sizes that are not negative gives a store that is
    [store_ok]: the invariant is inhabited by every store the hook builds. *)
Lemma measureStore_ok o rect useCache old :
  (forall i, 0 <= rebuiltSize o rect useCache old i) ->
  store_ok (measureStore o rect useCache old).
Proof.
  intros Hs i R.
  pose proof (measureStore_spec o rect useCache old) as S. cbv zeta in S.
  destruct S as (HL & Hin).
  assert (Hsz : forall j m,
             JsArray.get (measureStore o rect useCache old) j = Some m ->
             0 <= m_size m).
  { intros j m H. pose proof (get_some_range _ _ _ H) as Rj.
    unfold JsArray.len in Rj. rewrite Hin in H by lia.
    injection H as <-. cbn. apply Hs. }
  destruct (JsArray.get (measureStore o rect useCache old) i) as [m|] eqn:E;
    [|now apply measureStore_full in E].
  exists m. split; [reflexivity|].
  split; [|split; [eapply Hsz; eauto
                  |exact (proj2 (measureStore_chained o rect useCache old
                                   _ _ E))]].
  replace i with (Z.of_nat (Z.to_nat i)) in E by lia.
  rewrite (chained_start _ (measureStore_chained o rect useCache old)
             (measureStore_full o rect useCache old) _ _ E).
  now apply sizesBefore_nonneg.
Qed.

(** The write of a probe keeps a store [store_ok]: with the rebuilds, this
    covers every way the hook changes the store. *)
Lemma probe_write_ok (ms : Store) (i measured : Z) :
  store_ok ms -> 0 <= i < JsArray.len ms -> 0 <= measured ->
  store_ok (JsArray.set ms i (getMeasure ms i measured)).
Proof.
  intros Hok Hi Hm j Hj. unfold JsArray.len in Hj.
  rewrite length_set in Hj by lia.
  destruct (Z.eq_dec j i) as [->|N].
  - rewrite get_set_same by lia. eexists. split; [reflexivity|].
    cbn. split; [|split; [exact Hm | reflexivity]]. unfold prevEndOf.
    destruct (JsArray.get ms (i - 1)) as [p|] eqn:E; [|lia].
    pose proof (get_some_range _ _ _ E) as R.
    destruct (Hok (i - 1) R) as (p' & E' & A & B & C).
    rewrite E in E'. injection E' as <-. lia.
  - rewrite get_set_other by lia. apply Hok. unfold JsArray.len. lia.
Qed.

(** ** The binary search *)

Section SearchFacts.
Variable getVal : Z -> option Z.
Variable input : Z.

Lemma mid_range low high :
  0 <= low -> low <= high ->
  low <= Z.quot (low + high) 2 <= high.
Proof.
  intros H0 H. rewrite Z.quot_div_nonneg by lia.
  split; [apply Z.div_le_lower_bound | apply Z.div_le_upper_bound]; lia.
Qed.

(** More turns than the width of the range change nothing. *)
Lemma nearestLoop_fuel f1 : forall f2 low high,
  0 <= low ->
  high - low + 1 <= Z.of_nat f1 -> high - low + 1 <= Z.of_nat f2 ->
  nearestLoop getVal input f1 low high
  = nearestLoop getVal input f2 low high.
Proof.
  induction f1 as [|f1 IH]; intros f2 low high H0 H1 H2.
  - destruct f2 as [|f2]; cbn [nearestLoop]; [reflexivity|].
    destruct (Z.leb_spec low high); [lia | reflexivity].
  - destruct f2 as [|f2]; cbn [nearestLoop];
      destruct (Z.leb_spec low high) as [L|L]; try reflexivity; try lia.
    pose proof (mid_range low high H0 L) as M. cbv zeta.
    destruct (getVal _) as [val|]; [|reflexivity].
    destruct (input <? val); [apply IH; lia|].
    destruct (val <? input); [apply IH; lia | reflexivity].
Qed.

(** The search is the loop
    [while (low <= high) { mid = ((low + high) / 2) | 0; ... }
     return low > 0 ? low - 1 : 0]. *)
Lemma nearestLoop_unroll low high :
  0 <= low ->
  findNearestBinarySearch getVal input low high =
  if low <=? high then
    let mid := Z.quot (low + high) 2 in
    match getVal mid with
    | None => None
    | Some val =>
        if input <? val
        then findNearestBinarySearch getVal input low (mid - 1)
        else if val <? input
             then findNearestBinarySearch getVal input (mid + 1) high
             else Some mid
    end
  else Some (nearestExit low).
Proof.
  intros H0. unfold findNearestBinarySearch.
  destruct (Z.leb_spec low high) as [L|L].
  - pose proof (mid_range low high H0 L) as M.
    destruct (Z.to_nat (high - low + 1)) as [|f] eqn:E; [lia|].
    cbn [nearestLoop]. destruct (Z.leb_spec low high); [|lia]. cbv zeta.
    destruct (getVal _) as [val|]; [|reflexivity].
    destruct (input <? val); [apply nearestLoop_fuel; lia|].
    destruct (val <? input); [apply nearestLoop_fuel; lia | reflexivity].
  - replace (Z.to_nat (high - low + 1)) with O by lia. reflexivity.
Qed.

(** On a range whose entries can all be read, the search returns an index
    of the range (index 0 for an empty range). *)
Lemma nearestLoop_range fuel : forall low high,
  0 <= low -> low <= high + 1 ->
  (forall i, low <= i <= high -> getVal i <> None) ->
  exists v, nearestLoop getVal input fuel low high = Some v
            /\ 0 <= v <= Z.max high 0.
Proof.
  assert (X : forall low high, 0 <= low -> low <= high + 1 ->
                0 <= nearestExit low <= Z.max high 0).
  { intros low high H0 H1. unfold nearestExit.
    destruct (Z.ltb_spec 0 low); lia. }
  induction fuel as [|fuel IH]; intros low high H0 H1 Hg;
    cbn [nearestLoop].
  - eexists; split; [reflexivity | now apply X].
  - destruct (Z.leb_spec low high) as [L|L];
      [|eexists; split; [reflexivity | now apply X]].
    pose proof (mid_range low high H0 L) as M. cbv zeta.
    destruct (getVal _) as [val|] eqn:E;
      [|exfalso; now apply (Hg _ M)].
    destruct (input <? val).
    { destruct (IH low (Z.quot (low + high) 2 - 1)) as (v & Hv & R);
        [lia | lia | intros; apply Hg; lia |].
      exists v. split; [exact Hv | lia]. }
    destruct (val <? input).
    { destruct (IH (Z.quot (low + high) 2 + 1) high) as (v & Hv & R);
        [lia | lia | intros; apply Hg; lia |].
      exists v. split; [exact Hv | lia]. }
    eexists; split; [reflexivity | lia].
Qed.

(** On a sequence [val] that does not decrease over [0..top], the search
    returns the position of the greatest value not above [input]. *)
Variable val : Z -> Z.
Variable top : Z.
Hypothesis getVal_val : forall i, 0 <= i <= top -> getVal i = Some (val i).
Hypothesis val_mono :
  forall i j, 0 <= i -> i <= j -> j <= top -> val i <= val j.

Lemma nearestLoop_greatest fuel : forall low high,
  0 <= low -> low <= high + 1 -> high <= top ->
  high - low + 1 <= Z.of_nat fuel ->
  (forall i, 0 <= i < low -> val i < input) ->
  (forall i, high < i <= top -> input < val i) ->
  exists v, nearestLoop getVal input fuel low high = Some v
    /\ 0 <= v <= Z.max top 0
    /\ (forall i, 0 <= i <= top -> val i <= input -> val i <= val v)
    /\ ((exists i, 0 <= i <= top /\ val i <= input) -> val v <= input).
Proof.
  assert (X : forall low high, 0 <= low -> low = high + 1 -> high <= top ->
     (forall i, 0 <= i < low -> val i < input) ->
     (forall i, high < i <= top -> input < val i) ->
     0 <= nearestExit low <= Z.max top 0
     /\ (forall i, 0 <= i <= top -> val i <= input ->
                   val i <= val (nearestExit low))
     /\ ((exists i, 0 <= i <= top /\ val i <= input) ->
         val (nearestExit low) <= input)).
  { intros low high H0 H1 Ht Hlo Hhi. unfold nearestExit.
    destruct (Z.ltb_spec 0 low) as [P|P].
    - split; [lia|]. split.
      + intros i Hi Hle. apply val_mono; try lia.
        destruct (Z_le_dec i (low - 1)); [assumption|].
        specialize (Hhi i ltac:(lia)). lia.
      + intros _. specialize (Hlo (low - 1) ltac:(lia)). lia.
    - split; [lia|]. split.
      + intros i Hi Hle. specialize (Hhi i ltac:(lia)). lia.
      + intros (i & Hi & Hle). specialize (Hhi i ltac:(lia)). lia. }
  induction fuel as [|fuel IH]; intros low high H0 H1 Ht Hf Hlo Hhi;
    cbn [nearestLoop].
  - eexists; split; [reflexivity|]. apply (X low high); auto; lia.
  - destruct (Z.leb_spec low high) as [L|L];
      [|eexists; split; [reflexivity|]; apply (X low high); auto; lia].
    pose proof (mid_range low high H0 L) as M. cbv zeta.
    rewrite getVal_val by lia.
    destruct (Z.ltb_spec input (val (Z.quot (low + high) 2))) as [A|A].
    { apply IH; try lia; [exact Hlo|].
      intros i Hi.
      pose proof (val_mono (Z.quot (low + high) 2) i) as Hm.
      destruct (Z_le_dec i high); [lia | apply Hhi; lia]. }
    destruct (Z.ltb_spec (val (Z.quot (low + high) 2)) input) as [B|B].
    { apply IH; try lia; [|exact Hhi].
      intros i Hi.
      pose proof (val_mono i (Z.quot (low + high) 2)) as Hm.
      destruct (Z_le_dec low i); [lia | apply Hlo; lia]. }
    eexists; split; [reflexivity|]. split; [lia|]. split.
    + intros i Hi Hle. lia.
    + intros _. lia.
Qed.

End SearchFacts.

(** The search on small inputs: the entry holding the target, the first
    entry when the target is below all, index 0 on an empty range. *)
Example findNearestBinarySearch_inside :
  findNearestBinarySearch
    (fun i => option_map m_start (JsArray.get (fixedStore 4 100) i))
    250 0 3 = Some 2.
Proof. reflexivity. Qed.

Example findNearestBinarySearch_below :
  findNearestBinarySearch
    (fun i => option_map m_start (JsArray.get (fixedStore 4 100) i))
    (-5) 0 3 = Some 0.
Proof. reflexivity. Qed.

Example findNearestBinarySearch_empty :
  findNearestBinarySearch (fun _ => None) 7 0 (-1) = Some 0.
Proof. reflexivity. Qed.

Example findNearestBinarySearch_sticky :
  findNearestBinarySearch
    (fun i => JsArray.get (map Some [0; 50; 100]) i) 61 0 2 = Some 1.
Proof. reflexivity. Qed.

(** ** The window calculator *)

Section ScanFacts.
Variable ms : Store.
Variable scrollOffset : Z.
Hypothesis ms_ok : store_ok ms.

(** More turns than there are indices left change nothing. *)
Lemma scanStart_fuel f1 : forall f2 v,
  JsArray.len ms - v <= Z.of_nat f1 -> JsArray.len ms - v <= Z.of_nat f2 ->
  scanStart ms scrollOffset f1 v = scanStart ms scrollOffset f2 v.
Proof.
  induction f1 as [|f1 IH]; intros f2 v H1 H2.
  - destruct f2 as [|f2]; cbn [scanStart]; [reflexivity|].
    destruct (Z.ltb_spec v (JsArray.len ms)); [lia | reflexivity].
  - destruct f2 as [|f2]; cbn [scanStart];
      destruct (Z.ltb_spec v (JsArray.len ms)); try reflexivity; try lia.
    destruct (JsArray.get ms v) as [m|]; [|reflexivity]. cbv zeta.
    destruct (_ && _); [apply IH; lia | reflexivity].
Qed.

(** The scan is the loop of lines 133-139. *)
Lemma scanStart_unroll fuel v :
  JsArray.len ms - v <= Z.of_nat fuel ->
  scanStart ms scrollOffset fuel v =
  if v <? JsArray.len ms then
    match JsArray.get ms v with
    | None => None
    | Some m =>
        if (m_start m <? nextStart ms v)
           && (m_start m + m_size m <? scrollOffset)
        then scanStart ms scrollOffset fuel (v + 1)
        else Some v
    end
  else Some v.
Proof.
  intros H. remember (scanStart ms scrollOffset fuel (v + 1)) as next.
  destruct fuel as [|fuel]; cbn [scanStart].
  - destruct (Z.ltb_spec v (JsArray.len ms)); [lia | reflexivity].
  - destruct (Z.ltb_spec v (JsArray.len ms)); [|reflexivity].
    destruct (JsArray.get ms v) as [m|]; [|reflexivity].
    cbv zeta. fold (nextStart ms v).
    destruct (_ && _); [subst next; apply scanStart_fuel; lia | reflexivity].
Qed.

Lemma scanStart_spec fuel : forall v,
  0 <= v -> v + Z.of_nat fuel = JsArray.len ms ->
  exists r, scanStart ms scrollOffset fuel v = Some r
    /\ v <= r <= JsArray.len ms
    /\ (forall j, v <= j < r ->
          exists m, JsArray.get ms j = Some m
                    /\ m_start m < nextStart ms j
                    /\ m_start m + m_size m < scrollOffset)
    /\ (r < JsArray.len ms ->
          exists m, JsArray.get ms r = Some m
                    /\ ~ (m_start m < nextStart ms r
                          /\ m_start m + m_size m < scrollOffset)).
Proof.
  induction fuel as [|fuel IH]; intros v H0 Hf; cbn [scanStart].
  - exists v. split; [reflexivity|]. split; [lia|]. split; intros; lia.
  - destruct (Z.ltb_spec v (JsArray.len ms)) as [L|L]; [|lia].
    destruct (ms_ok v ltac:(lia)) as (m & E & _). rewrite E. cbv zeta.
    fold (nextStart ms v).
    destruct (Z.ltb_spec (m_start m) (nextStart ms v)) as [A|A];
      destruct (Z.ltb_spec (m_start m + m_size m) scrollOffset) as [B|B];
      cbn [andb].
    1: { destruct (IH (v + 1)) as (r & Hr & R & Hin & Hstop); [lia|lia|].
         exists r. split; [exact Hr|]. split; [lia|]. split; [|exact Hstop].
         intros j Hj. destruct (Z.eq_dec j v) as [->|N];
           [exists m; auto | apply Hin; lia]. }
    all: exists v; split; [reflexivity|]; split; [lia|];
      split; [intros; lia|]; intros _; exists m; split; [exact E | lia].
Qed.

(** In a store that is [store_ok] the scan halts on an index of the
    store: the last entry's start is not below the 0 that stands for the
    start past the end. *)
Lemma scanStart_in_range :
  0 < JsArray.len ms ->
  exists r, scanStart ms scrollOffset (length ms) 0 = Some r
    /\ 0 <= r <= JsArray.len ms - 1
    /\ (forall j, 0 <= j < r ->
          exists m, JsArray.get ms j = Some m
                    /\ m_start m < nextStart ms j
                    /\ m_start m + m_size m < scrollOffset)
    /\ (exists m, JsArray.get ms r = Some m
                  /\ ~ (m_start m < nextStart ms r
                        /\ m_start m + m_size m < scrollOffset)).
Proof.
  intros Hn.
  destruct (scanStart_spec (length ms) 0) as (r & Hr & R & Hin & Hstop);
    [lia | reflexivity |].
  assert (r < JsArray.len ms).
  { destruct (Z_lt_dec r (JsArray.len ms)); [assumption|].
    destruct (Hin (JsArray.len ms - 1) ltac:(lia)) as (m & E & A & _).
    destruct (ms_ok (JsArray.len ms - 1) ltac:(lia)) as (m' & E' & P & _).
    unfold nextStart in A. rewrite get_past in A by lia.
    rewrite E in E'. injection E' as ->. lia. }
  exists r. split; [exact Hr|]. split; [lia|]. split; [exact Hin|].
  now apply Hstop.
Qed.

Lemma scanStop_spec outerSize fuel : forall stop cur,
  0 <= stop -> stop + Z.of_nat fuel = JsArray.len ms ->
  exists r, scanStop ms scrollOffset outerSize fuel stop cur = Some r
    /\ stop <= r <= JsArray.len ms
    /\ (stop < JsArray.len ms -> cur < scrollOffset + outerSize ->
        stop < r).
Proof.
  induction fuel as [|fuel IH]; intros stop cur H0 Hf; cbn [scanStop].
  - exists stop. split; [reflexivity|]. lia.
  - destruct (Z.ltb_spec stop (JsArray.len ms)) as [L|L]; [|lia].
    destruct (Z.ltb_spec cur (scrollOffset + outerSize)) as [A|A];
      cbn [andb]; [|exists stop; split; [reflexivity | lia]].
    destruct (ms_ok stop ltac:(lia)) as (m & E & _). rewrite E.
    destruct (IH (stop + 1) (cur + m_size m)) as (r & Hr & R & _);
      [lia | lia |].
    exists r. split; [exact Hr | lia].
Qed.

End ScanFacts.

Lemma store_okb_sound ms : store_okb ms = true -> store_ok ms.
Proof.
  intros H i R. unfold store_okb in H. rewrite forallb_forall in H.
  unfold JsArray.len in R.
  destruct (nth_error ms (Z.to_nat i)) as [e|] eqn:E;
    [|apply nth_error_None in E; lia].
  specialize (H e (nth_error_In _ _ E)).
  destruct e as [m|]; [|discriminate].
  rewrite !andb_true_iff in H. destruct H as ((A & B) & C).
  exists m. unfold JsArray.get. destruct (Z.ltb_spec i 0); [lia|].
  rewrite E. split; [reflexivity | lia].
Qed.

Section CalcFacts.
Variables (o : Options) (dyn : bool) (rect : Rect) (ms : Store).
Variable scrollOffset : Z.

Lemma findStart_in_range :
  store_ok ms -> 0 < JsArray.len ms ->
  exists v, findStart dyn ms scrollOffset = Some v
            /\ 0 <= v <= JsArray.len ms - 1.
Proof.
  intros Hok Hn. unfold findStart. destruct dyn.
  - destruct (scanStart_in_range ms scrollOffset Hok Hn)
      as (r & Hr & R & _).
    exists r. split; [exact Hr | exact R].
  - destruct (nearestLoop_range
                (fun idx => option_map m_start (JsArray.get ms idx))
                scrollOffset (Z.to_nat (JsArray.len ms - 1 - 0 + 1))
                0 (JsArray.len ms - 1)) as (v & Hv & R);
      [lia | lia | |].
    + intros i Hi. destruct (Hok i ltac:(lia)) as (m & E & _).
      rewrite E. discriminate.
    + exists v. split; [exact Hv | lia].
Qed.

(** What a returned value was computed from. *)
Lemma getCalcData_inv c :
  getCalcData o dyn rect ms scrollOffset = Some c ->
  exists v m0 x mS mE mL,
    findStart dyn ms scrollOffset = Some v
    /\ JsArray.get ms v = Some m0
    /\ scanStop ms scrollOffset (sizeOf o rect)
         (Z.to_nat (JsArray.len ms - v)) v (m_start m0) = Some x
    /\ JsArray.get ms (Z.max (v - overscanCount o) 0) = Some mS
    /\ JsArray.get ms (Z.min (x + overscanCount o) (JsArray.len ms) - 1)
       = Some mE
    /\ JsArray.get ms (JsArray.len ms - 1) = Some mL
    /\ c = mkCalc (Z.max (v - overscanCount o) 0)
             (Z.min (x + overscanCount o) (JsArray.len ms) - 1)
             v (x - 1) (m_start mS)
             ((if Z.min (x + overscanCount o) (JsArray.len ms) - 1
                  <? JsArray.len ms - 1 then Z.max else Z.min)
                (m_end mE + m_size mE) (m_end mL) - m_start mS).
Proof.
  unfold getCalcData, bindO. intros H.
  destruct (findStart dyn ms scrollOffset) as [v|]; [|discriminate].
  destruct (JsArray.get ms v) as [m0|] eqn:E0; [|discriminate].
  destruct (scanStop _ _ _ _ _ _) as [x|] eqn:Ex; [|discriminate].
  destruct (JsArray.get ms (Z.max _ _)) as [mS|] eqn:ES; [|discriminate].
  destruct (JsArray.get ms (Z.min _ _ - 1)) as [mE|] eqn:EE;
    [|discriminate].
  destruct (JsArray.get ms (JsArray.len ms - 1)) as [mL|] eqn:EL;
    [|discriminate].
  injection H as <-. exists v, m0, x, mS, mE, mL. repeat split; auto.
Qed.

(** The calculator returns whenever the rendered range is not empty:
    some overscan, or a viewport that reaches past the first item's
    start. *)
Lemma getCalcData_total :
  store_ok ms -> 0 < JsArray.len ms -> 0 <= overscanCount o ->
  (0 < overscanCount o
   \/ exists m, JsArray.get ms 0 = Some m
                /\ m_start m < scrollOffset + sizeOf o rect) ->
  exists c, getCalcData o dyn rect ms scrollOffset = Some c.
Proof.
  intros Hok Hn Hoc Hne.
  destruct (findStart_in_range Hok Hn) as (v & Hv & R).
  destruct (Hok v ltac:(lia)) as (m0 & E0 & _).
  destruct (scanStop_spec ms scrollOffset Hok (sizeOf o rect)
              (Z.to_nat (JsArray.len ms - v)) v (m_start m0))
    as (x & Hx & Rx & Hgt); [lia | lia |].
  assert (P : 1 <= x + overscanCount o).
  { destruct Hne as [A|(m & E & A)]; [lia|].
    destruct (Z.eq_dec v 0) as [->|N]; [|lia].
    rewrite E in E0. injection E0 as ->.
    specialize (Hgt ltac:(lia) A). lia. }
  destruct (Hok (Z.max (v - overscanCount o) 0) ltac:(lia))
    as (mS & ES & _).
  destruct (Hok (Z.min (x + overscanCount o) (JsArray.len ms) - 1)
              ltac:(lia)) as (mE & EE & _).
  destruct (Hok (JsArray.len ms - 1) ltac:(lia)) as (mL & EL & _).
  unfold getCalcData, bindO. rewrite Hv, E0, Hx, ES, EE, EL.
  eexists. reflexivity.
Qed.

Lemma getCalcData_bounds c :
  getCalcData o dyn rect ms scrollOffset = Some c ->
  store_ok ms -> 0 <= overscanCount o ->
  0 <= vStart c <= JsArray.len ms - 1
  /\ vStart c - 1 <= vStop c <= JsArray.len ms - 1
  /\ oStart c = Z.max (vStart c - overscanCount o) 0
  /\ oStop c = Z.min (vStop c + 1 + overscanCount o) (JsArray.len ms) - 1.
Proof.
  intros H Hok Hoc.
  destruct (getCalcData_inv c H)
    as (v & m0 & x & mS & mE & mL & Hv & E0 & Hx & ES & EE & EL & ->).
  cbn [vStart vStop oStart oStop].
  pose proof (get_some_range _ _ _ E0) as Rv.
  destruct (scanStop_spec ms scrollOffset Hok (sizeOf o rect)
              (Z.to_nat (JsArray.len ms - v)) v (m_start m0))
    as (x' & Hx' & Rx & _); [lia | lia |].
  rewrite Hx in Hx'. injection Hx' as <-.
  repeat split; lia.
Qed.

End CalcFacts.

(** ** The claims about the window calculator *)

(** C1, as the code has it.  For every store that is [store_ok] (entries
    present, starts and sizes not negative), itemCount > 0, and every scroll
    offset, the total content size the calculator reports (margin plus
    innerSize) is the final item's end when the overscanned range reaches the
    last item, and otherwise the maximum (not the minimum) of
    end(overscanStop) + size(overscanStop) and end(last); it is never below
    the final end.  The calculator returns whenever the rendered range is
    not empty. *)
Theorem getCalcData_total_size (o : Options) (dyn : bool) (rect : Rect)
    (ms : Store) (scrollOffset : Z) :
  store_ok ms -> 0 < JsArray.len ms -> 0 <= overscanCount o ->
  (rangeNotEmpty o rect ms scrollOffset ->
   exists c, getCalcData o dyn rect ms scrollOffset = Some c)
  /\ forall c, getCalcData o dyn rect ms scrollOffset = Some c ->
       exists mE mL,
         JsArray.get ms (oStop c) = Some mE
         /\ JsArray.get ms (JsArray.len ms - 1) = Some mL
         /\ margin c + innerSize c =
            (if oStop c <? JsArray.len ms - 1
             then Z.max (m_end mE + m_size mE) (m_end mL)
             else m_end mL)
         /\ m_end mL <= margin c + innerSize c.
Proof.
  intros Hok Hn Hoc. split; [now apply getCalcData_total|].
  intros c H.
  destruct (getCalcData_inv _ _ _ _ _ c H)
    as (v & m0 & x & mS & mE & mL & Hv & E0 & Hx & ES & EE & EL & ->).
  cbn [oStop margin innerSize]. exists mE, mL.
  split; [exact EE|]. split; [exact EL|].
  destruct (Z.ltb_spec (Z.min (x + overscanCount o) (JsArray.len ms) - 1)
              (JsArray.len ms - 1)) as [A|A].
  - split; lia.
  - assert (Z.min (x + overscanCount o) (JsArray.len ms) - 1
            = JsArray.len ms - 1) as Q.
    { pose proof (get_some_range _ _ _ EE). lia. }
    rewrite Q in EE. rewrite EL in EE. injection EE as <-.
    destruct (Hok (JsArray.len ms - 1) ltac:(lia)) as (m' & E' & _ & P).
    rewrite EL in E'. injection E' as <-. split; lia.
Qed.

Lemma getCalcData_total_size_witness :
  exists c,
    getCalcData unevenOptions false (mkRect 0 5) unevenStore 0 = Some c
    /\ exists mE mL,
         JsArray.get unevenStore (oStop c) = Some mE
         /\ JsArray.get unevenStore (JsArray.len unevenStore - 1) = Some mL
         /\ margin c + innerSize c =
            (if oStop c <? JsArray.len unevenStore - 1
             then Z.max (m_end mE + m_size mE) (m_end mL)
             else m_end mL)
         /\ m_end mL <= margin c + innerSize c.
Proof.
  assert (Hok : store_ok unevenStore)
    by (apply store_okb_sound; vm_compute; reflexivity).
  assert (Hn : 0 < JsArray.len unevenStore) by (vm_compute; reflexivity).
  assert (Hoc : 0 <= overscanCount unevenOptions) by (vm_compute; discriminate).
  assert (Hne : rangeNotEmpty unevenOptions (mkRect 0 5) unevenStore 0)
    by (left; vm_compute; reflexivity).
  destruct (getCalcData_total_size unevenOptions false (mkRect 0 5)
              unevenStore 0 Hok Hn Hoc) as (Htotal & Hsize).
  destruct (Htotal Hne) as (c & Hc).
  exists c. split; [exact Hc | exact (Hsize c Hc)].
Defined.

(** C1, as stated, fails: with items of sizes 10, 100 and 10, a viewport of 5
    and overscan 1, at offset 0 the overscanned range stops at item 1, short
    of the last item, and the reported total is 210, above the final end 120
    and different from min(end(1) + size(1), end(last)) = 120. *)
Lemma getCalcData_total_size_exceeds_final_end :
  exists c mE mL,
    getCalcData unevenOptions false (mkRect 0 5) unevenStore 0 = Some c
    /\ JsArray.get unevenStore (oStop c) = Some mE
    /\ JsArray.get unevenStore (JsArray.len unevenStore - 1) = Some mL
    /\ oStop c < JsArray.len unevenStore - 1
    /\ m_end mL < margin c + innerSize c
    /\ margin c + innerSize c <> Z.min (m_end mE + m_size mE) (m_end mL).
Proof.
  exists (mkCalc 0 1 0 0 0 210), (mkMeasure 1 10 110 100),
    (mkMeasure 2 110 120 10).
  repeat split; try reflexivity. discriminate.
Qed.

(** C2, as the code has it.  With 1000 items of fixed size 100, viewport
    500, overscan 1 and no dynamic sizing, the calculator at offset 250
    returns visibleStart = 2, visibleStop = 7, overscanStart = 1 and
    overscanStop = 8 (item 7, from 700 to 800, is inside the window that ends
    at 750), with margin 100 and inner size 99900. *)
Theorem getCalcData_offset_250 (w : Z) :
  getCalcData scenarioOptions false (mkRect w 500) (fixedStore 1000 100) 250
  = Some (mkCalc 1 8 2 7 100 99900).
Proof. vm_compute. reflexivity. Qed.

(** C2, as stated, fails: the calculator does not return visibleStop = 6 and
    overscanStop = 7 at offset 250. *)
Lemma getCalcData_offset_250_not_6_7 :
  ~ exists c,
      getCalcData scenarioOptions false (mkRect 300 500)
        (fixedStore 1000 100) 250 = Some c
      /\ vStart c = 2 /\ vStop c = 6 /\ oStart c = 1 /\ oStop c = 7.
Proof.
  intros (c & H & _ & H6 & _). vm_compute in H.
  injection H as <-. discriminate.
Qed.

(** The store and the flag of that scenario are those the hook has after
    mounting in a viewport of height 500. *)
Example scenario_reached :
  let s := run alwaysUpdate intFloat
             [EvMount; EvResize scenarioOptions (mkRect 300 500)]
             (initState None None) in
  msDataRef s = fixedStore 1000 100 /\ hasDynamicSizeRef s = false
  /\ outerRectRef s = mkRect 300 500.
Proof. vm_compute. repeat split; reflexivity. Qed.

(** The companion scenario of the spec, at offset 0. *)
Example getCalcData_offset_0 (w : Z) :
  getCalcData scenarioOptions false (mkRect w 500) (fixedStore 1000 100) 0
  = Some (mkCalc 0 5 0 4 0 100000).
Proof. vm_compute. reflexivity. Qed.

(** C6.  For every store that is [store_ok] (entries present, starts and
    sizes not negative), itemCount > 0, an overscan count that is not
    negative and every scroll offset (in particular those between 0 and
    totalSize - viewportSize), the overscan range the calculator returns
    contains the visible range, overscanStart >= 0 and overscanStop <=
    itemCount - 1; and the calculator returns whenever the rendered range is
    not empty. *)
Theorem getCalcData_overscan_contains_visible (o : Options) (dyn : bool)
    (rect : Rect) (ms : Store) (scrollOffset : Z) :
  store_ok ms -> 0 < JsArray.len ms -> 0 <= overscanCount o ->
  (rangeNotEmpty o rect ms scrollOffset ->
   exists c, getCalcData o dyn rect ms scrollOffset = Some c)
  /\ forall c, getCalcData o dyn rect ms scrollOffset = Some c ->
       oStart c <= vStart c /\ vStop c <= oStop c
       /\ 0 <= oStart c /\ oStop c <= JsArray.len ms - 1.
Proof.
  intros Hok Hn Hoc. split; [now apply getCalcData_total|].
  intros c H.
  destruct (getCalcData_bounds _ _ _ _ _ c H Hok Hoc) as (A & B & -> & ->).
  lia.
Qed.

Lemma getCalcData_overscan_contains_visible_witness :
  exists c,
    getCalcData unevenOptions false (mkRect 0 5) unevenStore 0 = Some c
    /\ oStart c <= vStart c /\ vStop c <= oStop c
    /\ 0 <= oStart c /\ oStop c <= JsArray.len unevenStore - 1.
Proof.
  assert (Hok : store_ok unevenStore)
    by (apply store_okb_sound; vm_compute; reflexivity).
  assert (Hn : 0 < JsArray.len unevenStore) by (vm_compute; reflexivity).
  assert (Hoc : 0 <= overscanCount unevenOptions) by (vm_compute; discriminate).
  assert (Hne : rangeNotEmpty unevenOptions (mkRect 0 5) unevenStore 0)
    by (left; vm_compute; reflexivity).
  destruct (getCalcData_overscan_contains_visible unevenOptions false
              (mkRect 0 5) unevenStore 0 Hok Hn Hoc) as (Htotal & Hrange).
  destruct (Htotal Hne) as (c & Hc).
  exists c. split; [exact Hc | exact (Hrange c Hc)].
Defined.

(** C10.  For every store that is [store_ok] (entries present, starts and
    sizes not negative), itemCount > 0, and every scroll offset, the search
    for the start index completes (no entry outside the store is
    dereferenced: such a read throws, and the only read past the end is the
    guarded [msData[vStart + 1]?.start], taken as 0) and returns an index in
    [0, itemCount - 1], in both modes.  In dynamic mode every index before
    the result has a start strictly below the next start, so the scan halts
    no later than the first pair of starts that does not increase strictly,
    and no later than the last index. *)
Theorem findStart_in_bounds (dyn : bool) (ms : Store) (scrollOffset : Z) :
  store_ok ms -> 0 < JsArray.len ms ->
  exists v, findStart dyn ms scrollOffset = Some v
    /\ 0 <= v <= JsArray.len ms - 1
    /\ (dyn = true ->
        (forall j, 0 <= j < v ->
           exists m, JsArray.get ms j = Some m
                     /\ m_start m < nextStart ms j)
        /\ (forall k m, 0 <= k -> JsArray.get ms k = Some m ->
              nextStart ms k <= m_start m -> v <= k)).
Proof.
  intros Hok Hn.
  destruct (findStart_in_range dyn ms scrollOffset Hok Hn) as (v & Hv & R).
  exists v. split; [exact Hv|]. split; [exact R|].
  intros ->. unfold findStart in Hv.
  destruct (scanStart_in_range ms scrollOffset Hok Hn)
    as (r & Hr & _ & Hin & _).
  rewrite Hr in Hv. injection Hv as ->.
  assert (Hinc : forall j, 0 <= j < v ->
            exists m, JsArray.get ms j = Some m
                      /\ m_start m < nextStart ms j).
  { intros j Hj. destruct (Hin j Hj) as (m & E & A & _). eauto. }
  split; [exact Hinc|].
  intros k m Hk E Hle. destruct (Z_le_dec v k); [assumption|].
  destruct (Hinc k ltac:(lia)) as (m' & E' & A).
  rewrite E in E'. injection E' as <-. lia.
Qed.

Lemma findStart_in_bounds_witness :
  exists v, findStart true unevenStore 115 = Some v
    /\ 0 <= v <= JsArray.len unevenStore - 1
    /\ (true = true ->
        (forall j, 0 <= j < v ->
           exists m, JsArray.get unevenStore j = Some m
                     /\ m_start m < nextStart unevenStore j)
        /\ (forall k m, 0 <= k -> JsArray.get unevenStore k = Some m ->
              nextStart unevenStore k <= m_start m -> v <= k)).
Proof.
  apply (findStart_in_bounds true unevenStore 115).
  - apply store_okb_sound. vm_compute. reflexivity.
  - vm_compute. reflexivity.
Defined.

(** ** The claim about the measurement store *)

(** [measureItems] replaces the store by its rebuild. *)
Lemma measureItems_run o useCache s :
  measureItems o useCache s
  = Ok tt (set_msDataRef
             (measureStore o (outerRectRef s) useCache (msDataRef s)) s).
Proof. reflexivity. Qed.

(** C5, as the code has it.  For every constant itemSize s and every
    itemCount n, after a rebuild the store has n entries, and entry i holds
    start = the sum of the sizes of entries 0..i-1 and end = start + size
    (a cumulative sum in index order), its size being the cached one when
    useCache is set and a prior entry exists, and s otherwise.  When no
    cached size other than s is reused (useCache is off, or every cached size
    is s), start = i * s and end = (i + 1) * s, so Measure[n-1].end = n * s. *)
Theorem measureItems_cumulative_layout (o : Options) (rect : Rect)
    (useCache : bool) (old : Store) (s : Z) :
  itemSize o = SizeNum s ->
  let ms := measureStore o rect useCache old in
  length ms = itemCount o
  /\ (forall i, (i < itemCount o)%nat ->
        exists m, JsArray.get ms (Z.of_nat i) = Some m
          /\ m_size m = rebuiltSize o rect useCache old (Z.of_nat i)
          /\ m_start m = sizesBefore ms i
          /\ m_end m = m_start m + m_size m)
  /\ ((useCache = true ->
       forall i m, JsArray.get old i = Some m -> m_size m = s) ->
      forall i, (i < itemCount o)%nat ->
        exists m, JsArray.get ms (Z.of_nat i) = Some m
          /\ m_size m = s
          /\ m_start m = Z.of_nat i * s
          /\ m_end m = (Z.of_nat i + 1) * s).
Proof.
  intros Hs ms.
  pose proof (measureStore_spec o rect useCache old) as S. cbv zeta in S.
  fold ms in S. destruct S as (HL & Hin).
  pose proof (measureStore_chained o rect useCache old) as Hc. fold ms in Hc.
  pose proof (measureStore_full o rect useCache old) as Hf. fold ms in Hf.
  assert (A : forall i, (i < itemCount o)%nat ->
            exists m, JsArray.get ms (Z.of_nat i) = Some m
              /\ m_size m = rebuiltSize o rect useCache old (Z.of_nat i)
              /\ m_start m = sizesBefore ms i
              /\ m_end m = m_start m + m_size m).
  { intros i Hi. pose proof (Hin (Z.of_nat i) ltac:(lia)) as E.
    eexists. split; [exact E|]. split; [reflexivity|].
    split; [|reflexivity]. exact (chained_start ms Hc Hf i _ E). }
  split; [exact HL|]. split; [exact A|].
  intros Hcache.
  assert (R : forall j, rebuiltSize o rect useCache old j = s).
  { intros j. unfold rebuiltSize, getItemSize. rewrite Hs.
    destruct useCache; [|reflexivity].
    destruct (JsArray.get old j) as [m|] eqn:E; [|reflexivity].
    exact (Hcache eq_refl j m E). }
  intros i Hi. destruct (A i Hi) as (m & E & Hsz & Hst & He).
  exists m. rewrite R in Hsz. split; [exact E|]. split; [exact Hsz|].
  assert (Hst' : m_start m = Z.of_nat i * s).
  { rewrite Hst. apply sizesBefore_const.
    - intros j m' Hj E'. destruct (A (Z.to_nat j) ltac:(lia))
        as (m'' & E'' & Hsz'' & _).
      rewrite Z2Nat.id in E'' by lia. rewrite E' in E''.
      injection E'' as <-. rewrite Hsz''. apply R.
    - intros j Hj. apply Hf. unfold JsArray.len. lia. }
  split; [exact Hst' | lia].
Qed.

Lemma measureItems_cumulative_layout_witness :
  let ms := measureStore (fixedOptions 3 100 1) (mkRect 0 0) false [] in
  exists m, JsArray.get ms (Z.of_nat 2) = Some m
    /\ m_size m = 100
    /\ m_start m = Z.of_nat 2 * 100
    /\ m_end m = (Z.of_nat 2 + 1) * 100.
Proof.
  refine (proj2 (proj2 (measureItems_cumulative_layout (fixedOptions 3 100 1)
                          (mkRect 0 0) false [] 100 eq_refl)) _ 2%nat _).
  - intros H. discriminate H.
  - vm_compute. lia.
Defined.

(** C5, as stated, fails.  Two items of constant itemSize 100: after the
    probe of item 0 reports 30, the rebuild that the next resize runs reuses
    that size, and entry 1 then starts at 30, not at 1 * 100, and ends at
    130, not at 2 * 100. *)
Lemma measureItems_cached_size_counterexample :
  let o := fixedOptions 2 100 1 in
  let s := run alwaysUpdate intFloat
             [EvMount; EvResize o (mkRect 300 500);
              EvProbe o (mkProbe 0 0 100 0 false false) 0 0 30;
              EvResize o (mkRect 300 400)]
             (initState None None) in
  itemSize o = SizeNum 100
  /\ exists m, JsArray.get (msDataRef s) 1 = Some m
       /\ m_start m = 30 /\ m_start m <> 1 * 100
       /\ m_end m = 130 /\ m_end m <> 2 * 100.
Proof.
  split; [reflexivity|].
  exists (mkMeasure 1 30 130 100).
  repeat split; try reflexivity; discriminate.
Qed.

(** ** The claims about the scroll navigator *)

Section NavigatorClaims.
Variable shouldUpdate : list Item -> list Item -> bool.
Variable fp : FloatOps.

(** The scroll event that follows a change of the container's position
    brings the hook's own record of the offset up to date. *)
Lemma scrollHandler_syncs (o : Options) (s s' : State) (el : Outer) :
  outerRef s = Some el ->
  scrollHandler shouldUpdate o s = Ok tt s' ->
  scrollOffsetRef s' = scrollPos o el.
Proof.
  intros Hel. unfold scrollHandler. unfold bind at 1. cbn [get].
  rewrite Hel.
  destruct (Z.eqb_spec (scrollPos o el) (scrollOffsetRef s)) as [E|E].
  - intros [= <-]. symmetry. exact E.
  - cbv zeta. unfold bind.
    destruct (handleScroll _ _ _ _ _ s) as [[] sm|sm];
      [intros [= <-]; reflexivity | discriminate].
Qed.

(** C7.  For every numeric offset, [scrollToOffset] with [smooth: false]
    (as options object, or as a bare number) on a mounted container sets
    the container's scroll position along the scroll axis to exactly that
    offset before it returns, requests no animation frame, and has invoked
    the completion callback, once, by the time it returns; the handler of
    the scroll event that follows records the same offset as the hook's
    current scroll offset. *)
Theorem scrollToOffset_immediate (o : Options) (offset : Z) (id : nat)
    (now : Z) (val : ScrollToArg) (s : State) (el : Outer) :
  outerRef s = Some el ->
  val = OffsetOpts (JNum offset) (Some false) \/ val = OffsetNum offset ->
  exists s' el',
    scrollToOffset o val (Some (CbUser id)) now s = Ok tt s'
    /\ outerRef s' = Some el'
    /\ scrollPos o el' = offset
    /\ calls s' = calls s ++ [CallComplete id]
    /\ frames s' = frames s
    /\ forall s'', scrollHandler shouldUpdate o s' = Ok tt s'' ->
                   scrollOffsetRef s'' = offset.
Proof.
  intros Hel Hval.
  assert (H : exists s' el',
            scrollToOffset o val (Some (CbUser id)) now s = Ok tt s'
            /\ outerRef s' = Some el'
            /\ scrollPos o el' = offset
            /\ calls s' = calls s ++ [CallComplete id]
            /\ frames s' = frames s).
  { destruct Hval as [-> | ->];
      unfold scrollToOffset, bind, get, modify, scrollTo, runCallback,
        logCall, asNumber, truthy, scrollPos; cbn; rewrite Hel;
      destruct (horizontal o); do 2 eexists; repeat split; reflexivity. }
  destruct H as (s' & el' & H & Ho & Hp & Hc & Hf).
  exists s', el'. repeat split; try assumption.
  intros s'' Hs. rewrite <- Hp. exact (scrollHandler_syncs o s' s'' el' Ho Hs).
Qed.

(** C9.  A [scrollToOffset] whose options carry an offset that is not a
    number, and a [scrollToItem] whose options carry an index that is not
    a number, return at once: the whole state of the engine (scroll
    position, store, flags, recorded callback invocations, scheduled work)
    is unchanged. *)
Theorem scroll_non_numeric_noop (o : Options) (v : JsVal)
    (align : option Align) (smooth : option bool) (cb : option Callback)
    (cbi : option nat) (now : Z) (s : State) :
  isNumber v = false ->
  scrollToOffset o (OffsetOpts v smooth) cb now s = Ok tt s
  /\ scrollToItem fp o (ItemOpts v align smooth) cbi now s = Ok tt s.
Proof.
  intros H. unfold scrollToOffset, scrollToItem, asNumber, bind, get.
  rewrite H. split; reflexivity.
Qed.

End NavigatorClaims.

(** ** Handlers that leave a part of the state alone *)

Section Keeps.
Context {T : Type}.
Variable proj : State -> T.

Lemma keeps_ret {A} (a : A) : keeps proj (ret a).
Proof. intros s. reflexivity. Qed.

Lemma keeps_get : keeps proj get.
Proof. intros s. reflexivity. Qed.

Lemma keeps_throw {A} : keeps proj (@throw A).
Proof. intros s. reflexivity. Qed.

Lemma keeps_liftO {A} (x : option A) : keeps proj (liftO x).
Proof. destruct x; intros s; reflexivity. Qed.

Lemma keeps_modify f : (forall s, proj (f s) = proj s) -> keeps proj (modify f).
Proof. intros H s. apply H. Qed.

Lemma keeps_bind {A B} (c : M A) (k : A -> M B) :
  keeps proj c -> (forall a, keeps proj (k a)) -> keeps proj (bind c k).
Proof.
  intros Hc Hk s. unfold bind. specialize (Hc s).
  destruct (c s) as [a s'|s']; cbn in *; [|exact Hc].
  rewrite <- Hc. apply Hk.
Qed.

Lemma keeps_when b c : keeps proj c -> keeps proj (when b c).
Proof. intros H. destruct b; [exact H | apply keeps_ret]. Qed.

End Keeps.

(** Breaks a handler into its steps; [field] closes the goals about single
    updates, the hints of [keeps_db] those about the handlers it calls. *)
Create HintDb keeps_db.

Ltac keeps_steps field :=
  repeat first
    [ simple apply keeps_ret | simple apply keeps_get
    | simple apply keeps_throw | simple apply keeps_liftO
    | simple apply keeps_when
    | simple apply keeps_bind; [|intros ?]
    | simple apply keeps_modify; intros ?; field
    | progress cbv zeta
    | match goal with
      | |- keeps _ (if ?b then _ else _) => destruct b
      | |- keeps _ (match ?x with _ => _ end) => destruct x
      end ];
  auto with keeps_db.

Ltac same_field :=
  cbn;
  repeat match goal with
         | |- context [match ?x with _ => _ end] => destruct x
         end;
  reflexivity.

Section FlagFacts.
Variable shouldUpdate : list Item -> list Item -> bool.
Variable fp : FloatOps.

Lemma handleScroll_keeps_flag o off a b :
  keeps hasDynamicSizeRef (handleScroll shouldUpdate o off a b).
Proof.
  unfold handleScroll, logCall, setInnerStyle, publishItems,
    resetIsScrolling, resetUserScroll.
  keeps_steps same_field.
Qed.

Lemma runUser_keeps_flag cb : keeps hasDynamicSizeRef (runUser cb).
Proof. unfold runUser, logCall. keeps_steps same_field. Qed.
#[local] Hint Resolve handleScroll_keeps_flag runUser_keeps_flag : keeps_db.

Lemma runCallback_keeps_flag cb : keeps hasDynamicSizeRef (runCallback cb).
Proof. unfold runCallback, logCall. keeps_steps same_field. Qed.
#[local] Hint Resolve runCallback_keeps_flag : keeps_db.

Lemma scrollToOffset_keeps_flag o val cb now :
  keeps hasDynamicSizeRef (scrollToOffset o val cb now).
Proof.
  unfold scrollToOffset, scrollTo, requestFrame. keeps_steps same_field.
Qed.
#[local] Hint Resolve scrollToOffset_keeps_flag : keeps_db.

Lemma scrollToItem_keeps_flag o val cb now :
  keeps hasDynamicSizeRef (scrollToItem fp o val cb now).
Proof. unfold scrollToItem, measureItems. keeps_steps same_field. Qed.

Lemma outerResized_keeps_flag o rect :
  keeps hasDynamicSizeRef (outerResized shouldUpdate fp o rect).
Proof.
  unfold outerResized, measureItems, scrollTo, logCall.
  keeps_steps same_field.
Qed.

Lemma scrollHandler_keeps_flag o :
  keeps hasDynamicSizeRef (scrollHandler shouldUpdate o).
Proof. unfold scrollHandler. keeps_steps same_field. Qed.

Lemma runFrame_keeps_flag fr now :
  keeps hasDynamicSizeRef (runFrame fp fr now).
Proof. unfold runFrame, scrollTo, requestFrame. keeps_steps same_field. Qed.

Lemma teardown_keeps_flag : keeps hasDynamicSizeRef teardown.
Proof.
  unfold teardown, cancelResetIsScrolling, cancelResetUserScroll.
  keeps_steps same_field.
Qed.

End FlagFacts.

Lemma finalState_bind {A B} (c : M A) (k : A -> M B) s :
  finalState (bind c k s)
  = match c s with
    | Ok a s' => finalState (k a s')
    | Throw s' => s'
    end.
Proof. unfold bind. destruct (c s); reflexivity. Qed.

(** ** The claim about the dynamic-size flag *)

Section FlagClaim.
Variable shouldUpdate : list Item -> list Item -> bool.
Variable fp : FloatOps.

(** The probe changes the flag only by setting it, and only after a
    measurement that disagrees with the geometry it was created with. *)
Lemma probe_flag o env target ro measured s :
  let s' := finalState (probe shouldUpdate o env target ro measured s) in
  hasDynamicSizeRef s' = hasDynamicSizeRef s
  \/ (hasDynamicSizeRef s' = true
      /\ measured <> 0
      /\ (measured <> pe_size env
          \/ pe_start env <> prevEndOf (msDataRef s) (pe_i env))).
Proof.
  cbv zeta. unfold probe.
  destruct (Z.eqb_spec measured 0) as [E0|E0]; [left; reflexivity|].
  rewrite finalState_bind. cbn [get]. cbv zeta.
  destruct (negb (measured =? pe_size env)
            || negb (pe_start env =? prevEndOf (msDataRef s) (pe_i env)))
    eqn:C; cbn [when]; [|left; reflexivity].
  rewrite finalState_bind.
  set (s2 := set_msDataRef
               (JsArray.set
                  (msDataRef (finalState
                     (when ((pe_i env <? prevItemIdxRef s)
                            && (pe_start env <? pe_scrollOffset env))
                        (scrollTo o (pe_scrollOffset env + measured
                                     - pe_size env)) s)))
                  (pe_i env)
                  (getMeasure
                     (msDataRef (finalState
                        (when ((pe_i env <? prevItemIdxRef s)
                               && (pe_start env <? pe_scrollOffset env))
                           (scrollTo o (pe_scrollOffset env + measured
                                        - pe_size env)) s)))
                     (pe_i env) measured))
               (finalState
                  (when ((pe_i env <? prevItemIdxRef s)
                         && (pe_start env <? pe_scrollOffset env))
                     (scrollTo o (pe_scrollOffset env + measured
                                  - pe_size env)) s))).
  assert (F2 : hasDynamicSizeRef s2 = hasDynamicSizeRef s).
  { unfold s2, when, scrollTo, modify.
    destruct (_ && _); cbn; [destruct (outerRef s)|]; reflexivity. }
  match goal with
  | |- context [match ?X s with _ => _ end] =>
      assert (EX : X s =
                   match handleScroll shouldUpdate o (pe_scrollOffset env)
                           (pe_isScrolling env) (pe_uxScrolling env) s2 with
                   | Ok _ s3 => Ok tt (set_hasDynamicSizeRef true s3)
                   | Throw s3 => Throw s3
                   end)
  end.
  { unfold bind at 1 2 3. unfold s2, when, scrollTo, modify.
    destruct (_ && _); cbn [finalState ret]; reflexivity. }
  rewrite EX.
  pose proof (handleScroll_keeps_flag shouldUpdate o (pe_scrollOffset env)
                (pe_isScrolling env) (pe_uxScrolling env) s2) as K.
  destruct (handleScroll _ _ _ _ _ s2) as [[] s3|s3];
    change (hasDynamicSizeRef s3 = hasDynamicSizeRef s2) in K.
  - right. split; [reflexivity|]. split; [exact E0|].
    apply orb_true_iff in C. rewrite !negb_true_iff in C.
    destruct C as [C|C]; apply Z.eqb_neq in C; auto.
  - left. cbn [finalState]. congruence.
Qed.

Lemma step_flag e s :
  hasDynamicSizeRef (after shouldUpdate fp e s) = hasDynamicSizeRef s
  \/ (hasDynamicSizeRef (after shouldUpdate fp e s) = true
      /\ exists o env target ro measured,
           e = EvProbe o env target ro measured
           /\ measured <> 0
           /\ (measured <> pe_size env
               \/ pe_start env <> prevEndOf (msDataRef s) (pe_i env))).
Proof.
  assert (K : (forall o env target ro measured,
                 e <> EvProbe o env target ro measured) ->
              keeps hasDynamicSizeRef (step shouldUpdate fp e)).
  { intros N. destruct e; try (exfalso; eapply N; reflexivity);
      unfold step;
      pose proof (handleScroll_keeps_flag shouldUpdate);
      pose proof (scrollToOffset_keeps_flag);
      pose proof (scrollToItem_keeps_flag fp);
      pose proof (outerResized_keeps_flag shouldUpdate fp);
      pose proof (scrollHandler_keeps_flag shouldUpdate);
      pose proof (runFrame_keeps_flag fp);
      pose proof teardown_keeps_flag;
      unfold scrollTo; keeps_steps same_field. }
  destruct e; try (left; apply K; discriminate).
  destruct (probe_flag o env target ro measured s) as [L|(A & B & C)];
    [left; exact L|].
  right. split; [exact A|]. do 5 eexists. eauto.
Qed.

(** C8.  The flag starts false; every event of the engine leaves it
    unchanged or sets it to true, the latter only in the probe's callback,
    after a non-zero measurement that differs from the size the item was
    rendered with or comes with a recorded start that differs from the end
    of the preceding entry; and no sequence of events takes it from true
    back to false. *)
Theorem hasDynamicSize_sticky :
  (forall stickies isItemLoaded,
     hasDynamicSizeRef (initState stickies isItemLoaded) = false)
  /\ (forall e s,
        hasDynamicSizeRef (after shouldUpdate fp e s) = hasDynamicSizeRef s
        \/ (hasDynamicSizeRef (after shouldUpdate fp e s) = true
            /\ exists o env target ro measured,
                 e = EvProbe o env target ro measured
                 /\ measured <> 0
                 /\ (measured <> pe_size env
                     \/ pe_start env
                        <> prevEndOf (msDataRef s) (pe_i env))))
  /\ (forall es s,
        hasDynamicSizeRef s = true -> hasDynamicSizeRef (run shouldUpdate fp es s) = true).
Proof.
  split; [reflexivity|]. split; [exact step_flag|].
  induction es as [|e es IH]; intros s H; [exact H|].
  cbn [run fold_left]. apply IH.
  destruct (step_flag e s) as [L|(A & _)]; congruence.
Qed.

End FlagClaim.

(** ** What one run of [handleScroll] does *)

Section HandleScrollFacts.
Variable shouldUpdate : list Item -> list Item -> bool.

(** The items of the overscanned range can be built when its entries are
    present. *)
Lemma renderRange_total ms w stickies off a b mg k : forall i,
  (forall j, i <= j < i + Z.of_nat k -> JsArray.get ms j <> None) ->
  exists r, renderRange ms w stickies off a b mg k i = Some r.
Proof.
  induction k as [|k IH]; intros i H; cbn [renderRange].
  - eexists. reflexivity.
  - destruct (JsArray.get ms i) as [m|] eqn:E;
      [|exfalso; apply (H i); [lia | exact E]].
    destruct (IH (i + 1)) as (r & Hr); [intros j Hj; apply H; lia|].
    unfold bindO. rewrite Hr. eexists. reflexivity.
Qed.

(** A run of [handleScroll] whose reads all succeed. *)
Lemma handleScroll_ok o off isS ux s st c regular sticky :
  innerRef s = Some st ->
  itemCount o <> O ->
  getCalcData o (hasDynamicSizeRef s) (outerRectRef s) (msDataRef s) off
  = Some c ->
  renderRange (msDataRef s) (r_width (outerRectRef s))
    (match stickyIndicesRef s with Some l => l | None => [] end)
    off isS ux (margin c) (Z.to_nat (oStop c - oStart c + 1)) (oStart c)
  = Some regular ->
  stickyItem (msDataRef s) (r_width (outerRectRef s))
    (match stickyIndicesRef s with Some l => l | None => [] end) ux c
  = Some sticky ->
  exists s',
    handleScroll shouldUpdate o off isS ux s = Ok tt s'
    /\ items s' =
       (let next := match sticky with
                    | Some it => it :: regular
                    | None => regular
                    end in
        if shouldUpdate (items s) next then next else items s)
    /\ innerRef s' =
       Some (match sticky with
             | Some it =>
                 restyle o (restyle o st (margin c) (innerSize c))
                   (margin c - size it) (innerSize c + size it)
             | None => restyle o st (margin c) (innerSize c)
             end)
    /\ calls s' =
       calls s ++ firstLoadRequest o s off
       ++ (if isS then scrollNotice o s c off ++ loadRequest o s c off
           else [])
    /\ prevVStopRef s' =
       (if isS then Some (vStop c) else prevVStopRef s).
Proof.
  intros Hin Hn Hc Hr Hs.
  unfold handleScroll, firstLoadRequest, scrollNotice, loadRequest.
  unfold bind at 1. cbn [get]. rewrite Hin. cbn [isSome negb].
  destruct (itemCount o) as [|n] eqn:En; [congruence|]. cbn [Nat.eqb].
  unfold bind, when, logCall, resetIsScrolling, resetUserScroll, modify,
    liftO, setInnerStyle, publishItems, ret. cbv zeta.
  destruct (loadMore o && negb (isMountedRef s) && negb (pageLoaded s 0));
    cbn; rewrite Hc, Hr, Hs; cbn; rewrite Hin;
    destruct sticky as [it|]; cbn; rewrite ?Hin; cbn;
    (destruct isS; cbn;
     [ destruct (onScroll o); cbn;
       unfold pageLoaded; cbn;
       destruct (loadMore o && negb (optEqb (vStop c) (prevVStopRef s))
                 && negb match isItemLoadedRef s with
                         | Some f => f ((vStop c + 1) / loadMoreCount o)
                         | None => false
                         end); cbn;
       destruct ux; cbn; destruct (userScrollRef s); cbn
     | ]);
    eexists; (split; [reflexivity|]); cbn;
    rewrite <- ?app_assoc, ?app_nil_r; repeat split; reflexivity.
Qed.



End HandleScrollFacts.

(** ** The claim about the incremental loader *)

Section LoaderClaim.
Variable shouldUpdate : list Item -> list Item -> bool.

(** A run that returns has read everything it needed. *)
Lemma handleScroll_ok_inv o off isS ux s s' st c :
  handleScroll shouldUpdate o off isS ux s = Ok tt s' ->
  innerRef s = Some st -> itemCount o <> O ->
  getCalcData o (hasDynamicSizeRef s) (outerRectRef s) (msDataRef s) off
  = Some c ->
  exists regular sticky,
    renderRange (msDataRef s) (r_width (outerRectRef s))
      (match stickyIndicesRef s with Some l => l | None => [] end)
      off isS ux (margin c) (Z.to_nat (oStop c - oStart c + 1)) (oStart c)
    = Some regular
    /\ stickyItem (msDataRef s) (r_width (outerRectRef s))
         (match stickyIndicesRef s with Some l => l | None => [] end) ux c
       = Some sticky.
Proof.
  intros H Hin Hn Hc. revert H. unfold handleScroll.
  unfold bind at 1. cbn [get]. rewrite Hin. cbn [isSome negb].
  destruct (itemCount o) as [|n] eqn:En; [congruence|]. cbn [Nat.eqb].
  unfold bind, when, logCall, resetIsScrolling, resetUserScroll, modify,
    liftO, setInnerStyle, ret. cbv zeta.
  destruct (loadMore o && negb (isMountedRef s) && negb (pageLoaded s 0));
    cbn; rewrite Hc; cbn; rewrite Hin;
    (destruct (renderRange _ _ _ _ _ _ _ _ _) as [regular|];
       cbn; [|discriminate]);
    (destruct (stickyItem _ _ _ _ _) as [sticky|]; cbn; [|discriminate]);
    intros _; eauto.
Qed.


End LoaderClaim.



(** ** The claim about the sticky resolver *)

Lemma sorted_nth (l : list Z) :
  Sorted Z.le l ->
  forall i j, (i <= j < length l)%nat -> nth i l 0 <= nth j l 0.
Proof.
  intros H. apply Sorted_StronglySorted in H;
    [|intros x y z; apply Z.le_trans].
  induction H as [|a l HS IH HF]; intros i j Hij; [cbn in Hij; lia|].
  destruct i as [|i], j as [|j]; cbn in *; try lia.
  - rewrite Forall_forall in HF. apply HF, nth_In. lia.
  - apply IH. lia.
Qed.

(** On an ascending list the sticky resolver picks the greatest sticky index
    that is not above [vStart]; when that index lies before the overscanned
    range, the item it describes is pinned at start 0. *)
Lemma stickyItem_found ms w stickies ux c k m :
  Sorted Z.le stickies ->
  In k stickies -> k <= vStart c ->
  (forall k', In k' stickies -> k' <= vStart c -> k' <= k) ->
  k < oStart c ->
  JsArray.get ms k = Some m ->
  stickyItem ms w stickies ux c
  = Some (Some (mkItem k 0 (m_size m) w ux true None)).
Proof.
  intros Hsort Hin Hle Hmax Hlt Hm.
  unfold stickyItem. destruct stickies as [|x xs] eqn:Es; [destruct Hin|].
  rewrite <- Es in *. clear Es x xs.
  set (top := Z.of_nat (length stickies) - 1).
  assert (Hlen : 0 < Z.of_nat (length stickies))
    by (destruct stickies; [destruct Hin | cbn; lia]).
  destruct (nearestLoop_greatest
              (fun idx => JsArray.get (map Some stickies) idx) (vStart c)
              (fun i => nth (Z.to_nat i) stickies 0) top
              ltac:(intros i Hi; apply get_map_Some; unfold top in Hi; lia)
              ltac:(intros i j Hi Hij Hj; apply sorted_nth;
                    [exact Hsort | unfold top in Hj; lia])
              (Z.to_nat (top - 0 + 1)) 0 top
              ltac:(lia) ltac:(unfold top; lia) ltac:(lia) ltac:(lia)
              ltac:(intros; lia) ltac:(intros; lia))
    as (v & Hv & Rv & Hge & Hbelow).
  unfold findNearestBinarySearch, bindO. fold top. rewrite Hv.
  rewrite (get_map_Some stickies 0 v) by (unfold top in Rv; lia).
  destruct (In_nth stickies k 0 Hin) as (ik & Hik & Ek).
  assert (Hk1 : k <= nth (Z.to_nat v) stickies 0).
  { specialize (Hge (Z.of_nat ik) ltac:(unfold top; lia)).
    rewrite Nat2Z.id, Ek in Hge. apply Hge. exact Hle. }
  assert (Hk2 : nth (Z.to_nat v) stickies 0 <= vStart c).
  { apply Hbelow. exists (Z.of_nat ik). rewrite Nat2Z.id, Ek.
    split; [unfold top; lia | exact Hle]. }
  assert (Hk3 : nth (Z.to_nat v) stickies 0 <= k).
  { apply Hmax; [apply nth_In; unfold top in Rv; lia | exact Hk2]. }
  replace (nth (Z.to_nat v) stickies 0) with k by lia.
  destruct (Z.ltb_spec k (oStart c)); [|lia].
  rewrite Hm. reflexivity.
Qed.

Section StickyClaim.
Variable shouldUpdate : list Item -> list Item -> bool.

(** C4, as the code has it.  For every ascending stickyIndices list,
    whenever the greatest sticky index not above visibleStart lies strictly
    before the overscan window's start, the handler completes, the item
    list it hands over starts with exactly that sticky item, with start = 0
    and isSticky = true, followed by the items of the overscanned range;
    the published leading margin is lowered by that item's size and the
    published inner size is raised by it, so that their sum is
    unchanged. *)
Theorem handleScroll_prepends_sticky (o : Options) (off : Z)
    (isS ux : bool) (s : State) (st : Style) (stickies : list Z)
    (c : CalcData) (k : Z) :
  innerRef s = Some st -> itemCount o <> O ->
  getCalcData o (hasDynamicSizeRef s) (outerRectRef s) (msDataRef s) off
  = Some c ->
  store_ok (msDataRef s) -> 0 <= overscanCount o ->
  stickyIndicesRef s = Some stickies -> Sorted Z.le stickies ->
  In k stickies -> k <= vStart c ->
  (forall k', In k' stickies -> k' <= vStart c -> k' <= k) ->
  0 <= k < oStart c ->
  exists s' regular m st',
    handleScroll shouldUpdate o off isS ux s = Ok tt s'
    /\ JsArray.get (msDataRef s) k = Some m
    /\ renderRange (msDataRef s) (r_width (outerRectRef s)) stickies off
         isS ux (margin c) (Z.to_nat (oStop c - oStart c + 1)) (oStart c)
       = Some regular
    /\ items s' =
       (let next :=
          mkItem k 0 (m_size m) (r_width (outerRectRef s)) ux true None
          :: regular in
        if shouldUpdate (items s) next then next else items s)
    /\ innerRef s' = Some st'
    /\ marginOf o st' = Some (margin c - m_size m)
    /\ sizeStyleOf o st' = Some (innerSize c + m_size m).
Proof.
  intros Hin Hn Hc Hok Hoc Hst Hsort Hk Hle Hmax Hlt.
  destruct (getCalcData_bounds _ _ _ _ _ c Hc Hok Hoc)
    as (Rv & Rs & EoS & EoE).
  destruct (Hok k ltac:(lia)) as (m & Hm & _).
  destruct (renderRange_total (msDataRef s) (r_width (outerRectRef s))
              stickies off isS ux (margin c)
              (Z.to_nat (oStop c - oStart c + 1)) (oStart c))
    as (regular & Hr).
  { intros j Hj. destruct (Hok j ltac:(lia)) as (mj & Ej & _).
    rewrite Ej. discriminate. }
  pose proof (stickyItem_found (msDataRef s) (r_width (outerRectRef s))
                stickies ux c k m Hsort Hk Hle Hmax (proj2 Hlt) Hm) as Hs.
  destruct (handleScroll_ok shouldUpdate o off isS ux s st c regular
              (Some (mkItem k 0 (m_size m) (r_width (outerRectRef s)) ux
                       true None)))
    as (s' & H & Hitems & Hstyle & _); auto.
  1, 2: rewrite Hst; assumption.
  exists s', regular, m. eexists.
  split; [exact H|]. split; [exact Hm|]. split; [exact Hr|].
  split; [exact Hitems|]. split; [exact Hstyle|].
  unfold marginOf, sizeStyleOf, restyle. cbn [size].
  destruct (horizontal o); split; reflexivity.
Qed.

End StickyClaim.

(** The sticky scenario of the spec: at offset 6100 the overscanned range
    starts at 60 and sticky item 50 is prepended. *)
Lemma handleScroll_prepends_sticky_witness :
  let s := stickyMounted in
  let c := mkCalc 60 66 61 65 6000 6000 in
  exists s' regular m st',
    handleScroll alwaysUpdate stickyOptions 6100 true false s = Ok tt s'
    /\ JsArray.get (msDataRef s) 50 = Some m
    /\ renderRange (msDataRef s) (r_width (outerRectRef s)) [0; 50; 100]
         6100 true false (margin c) (Z.to_nat (oStop c - oStart c + 1))
         (oStart c)
       = Some regular
    /\ items s' =
       (let next :=
          mkItem 50 0 (m_size m) (r_width (outerRectRef s)) false true None
          :: regular in
        if alwaysUpdate (items s) next then next else items s)
    /\ innerRef s' = Some st'
    /\ marginOf stickyOptions st' = Some (margin c - m_size m)
    /\ sizeStyleOf stickyOptions st' = Some (innerSize c + m_size m).
Proof.
  cbv zeta.
  apply (handleScroll_prepends_sticky alwaysUpdate stickyOptions 6100 true
           false stickyMounted (mkStyle (Some 0) None (Some 12000) None)
           [0; 50; 100] (mkCalc 60 66 61 65 6000 6000) 50).
  - vm_compute. reflexivity.
  - vm_compute. discriminate.
  - vm_compute. reflexivity.
  - apply store_okb_sound. vm_compute. reflexivity.
  - vm_compute. discriminate.
  - vm_compute. reflexivity.
  - repeat constructor; lia.
  - cbn. tauto.
  - cbn. lia.
  - intros k' [<-|[<-|[<-|[]]]]; cbn; lia.
  - cbn. lia.
Defined.

(** C4, as stated, fails on the margin: in the sticky scenario (sticky
    indices 0, 50 and 100, overscanStart = 60) item 50, of size 100, is
    prepended pinned at start 0, the inner size grows from 6000 to 6100, but
    the published leading margin goes from the computed 6000 down to 5900,
    not up to 6100. *)
Lemma handleScroll_sticky_margin_lowered :
  let s' := finalState (handleScroll alwaysUpdate stickyOptions 6100 true
                          false stickyMounted) in
  getCalcData stickyOptions (hasDynamicSizeRef stickyMounted)
    (outerRectRef stickyMounted) (msDataRef stickyMounted) 6100
  = Some (mkCalc 60 66 61 65 6000 6000)
  /\ hd_error (items s') = Some (mkItem 50 0 100 300 false true None)
  /\ innerRef s' = Some (mkStyle (Some 5900) None (Some 6100) None)
  /\ Some 5900 <> Some (6000 + 100).
Proof.
  cbv zeta. repeat split; try (vm_compute; reflexivity). discriminate.
Qed.

(** ** Witnesses of the navigator and flag claims *)

Lemma scrollToOffset_immediate_witness :
  let s := run alwaysUpdate intFloat [EvMount] (initState None None) in
  exists s' el',
    scrollToOffset scenarioOptions (OffsetOpts (JNum 250) (Some false))
      (Some (CbUser 7%nat)) 0 s = Ok tt s'
    /\ outerRef s' = Some el'
    /\ scrollPos scenarioOptions el' = 250
    /\ calls s' = calls s ++ [CallComplete 7%nat]
    /\ frames s' = frames s
    /\ forall s'', scrollHandler alwaysUpdate scenarioOptions s' = Ok tt s'' ->
                   scrollOffsetRef s'' = 250.
Proof.
  cbv zeta.
  apply (scrollToOffset_immediate alwaysUpdate scenarioOptions 250 7%nat 0
           (OffsetOpts (JNum 250) (Some false))
           (run alwaysUpdate intFloat [EvMount] (initState None None))
           (mkOuter 0 0)).
  - reflexivity.
  - left. reflexivity.
Defined.

Lemma scroll_non_numeric_noop_witness :
  let s := stickyMounted in
  scrollToOffset scenarioOptions (OffsetOpts JUndefined (Some false))
    (Some (CbUser 7%nat)) 0 s = Ok tt s
  /\ scrollToItem intFloat scenarioOptions
       (ItemOpts JUndefined (Some AlignStart) (Some false)) (Some 7%nat) 0 s
     = Ok tt s.
Proof.
  cbv zeta.
  apply (scroll_non_numeric_noop intFloat scenarioOptions JUndefined
           (Some AlignStart)).
  reflexivity.
Defined.

(** Once a probe has reported 30 for an item rendered with size 100, the
    flag is set, and a later resize leaves it set. *)
Lemma hasDynamicSize_sticky_witness :
  let o := fixedOptions 2 100 1 in
  let s := run alwaysUpdate intFloat
             [EvMount; EvResize o (mkRect 300 500);
              EvProbe o (mkProbe 0 0 100 0 false false) 0 0 30]
             (initState None None) in
  hasDynamicSizeRef s = true
  /\ hasDynamicSizeRef
       (run alwaysUpdate intFloat [EvResize o (mkRect 300 400)] s) = true.
Proof.
  cbv zeta.
  assert (H : hasDynamicSizeRef
                (run alwaysUpdate intFloat
                   [EvMount; EvResize (fixedOptions 2 100 1) (mkRect 300 500);
                    EvProbe (fixedOptions 2 100 1)
                      (mkProbe 0 0 100 0 false false) 0 0 30]
                   (initState None None)) = true)
    by (vm_compute; reflexivity).
  split; [exact H|].
  exact (proj2 (proj2 (hasDynamicSize_sticky alwaysUpdate intFloat)) _ _ H).
Defined.

(** * Further properties of the engine *)

(** ** Rebuilds of the store *)

(** Two arrays of the same length with the same reads are equal. *)
Lemma array_ext {A} (a b : JsArray.t A) :
  length a = length b ->
  (forall i, 0 <= i < JsArray.len a -> JsArray.get a i = JsArray.get b i) ->
  a = b.
Proof.
  intros HL H. apply nth_error_ext. intros n.
  destruct (Nat.lt_ge_cases n (length a)) as [L|G].
  - specialize (H (Z.of_nat n) ltac:(unfold JsArray.len; lia)).
    rewrite !get_nth in H.
    destruct (nth_error a n) as [x|] eqn:Ea;
      [|apply nth_error_None in Ea; lia].
    destruct (nth_error b n) as [y|] eqn:Eb;
      [|apply nth_error_None in Eb; lia].
    now subst.
  - rewrite (proj2 (nth_error_None a n)) by lia.
    now rewrite (proj2 (nth_error_None b n)) by lia.
Qed.

(** A store in which every entry is the measure of its size after its
    predecessor is determined by its length and its sizes. *)
Lemma rebuilt_unique (n : nat) (sz : Z -> Z) (a b : Store) :
  length a = n -> length b = n ->
  (forall j, 0 <= j < Z.of_nat n ->
     JsArray.get a j = Some (getMeasure a j (sz j))) ->
  (forall j, 0 <= j < Z.of_nat n ->
     JsArray.get b j = Some (getMeasure b j (sz j))) ->
  a = b.
Proof.
  intros La Lb Ha Hb.
  assert (E : forall k : nat, (k <= n)%nat ->
            forall j, 0 <= j < Z.of_nat k ->
                      JsArray.get a j = JsArray.get b j).
  { induction k as [|k IH]; intros Hk j Hj; [lia|].
    destruct (Z.eq_dec j (Z.of_nat k)) as [->|N]; [|apply IH; lia].
    rewrite Ha, Hb by lia. unfold getMeasure, prevEndOf.
    destruct (Z.eq_dec (Z.of_nat k) 0) as [Z0|NZ].
    - rewrite !get_neg by lia. reflexivity.
    - rewrite (IH ltac:(lia) (Z.of_nat k - 1)) by lia. reflexivity. }
  apply array_ext; [congruence|].
  intros i Hi. apply (E n); unfold JsArray.len in Hi; lia.
Qed.

(** X1.  A rebuild is determined by the item count and the sizes it
    assigns: rebuilding once more with the cache gives the same store, and a
    rebuild without the cache does not depend on the store it replaces. *)
Theorem measureItems_rebuild_stable (o : Options) (rect : Rect)
    (useCache : bool) (old old' : Store) :
  measureStore o rect true (measureStore o rect useCache old)
  = measureStore o rect useCache old
  /\ measureStore o rect false old = measureStore o rect false old'.
Proof.
  split.
  - pose proof (measureStore_spec o rect useCache old) as S1.
    pose proof (measureStore_spec o rect true
                  (measureStore o rect useCache old)) as S2.
    cbv zeta in S1, S2. destruct S1 as (L1 & H1), S2 as (L2 & H2).
    apply (rebuilt_unique (itemCount o)
             (rebuiltSize o rect useCache old)); auto.
    intros j Hj. rewrite H2 by lia. f_equal. f_equal.
    unfold rebuiltSize at 1. rewrite H1 by lia. reflexivity.
  - pose proof (measureStore_spec o rect false old) as S1.
    pose proof (measureStore_spec o rect false old') as S2.
    cbv zeta in S1, S2. destruct S1 as (L1 & H1), S2 as (L2 & H2).
    apply (rebuilt_unique (itemCount o) (getItemSize o rect)); auto.
Qed.

Lemma sizesBefore_mono (ms : Store) (i j : nat) :
  (forall k m, JsArray.get ms k = Some m -> 0 <= m_size m) ->
  (i <= j)%nat -> sizesBefore ms i <= sizesBefore ms j.
Proof.
  intros H L. induction L as [|j L IH]; [lia|].
  cbn [sizesBefore].
  destruct (JsArray.get ms (Z.of_nat j)) as [m|] eqn:E; [|lia].
  specialize (H _ _ E). lia.
Qed.

(** X2.  After a rebuild from sizes that are not negative, the starts and
    the ends do not decrease along the indices, every start is the sum of
    the sizes before it, and the end of the last entry is the sum of all
    sizes. *)
Theorem measureItems_monotone (o : Options) (rect : Rect) (useCache : bool)
    (old : Store) :
  (forall i, 0 <= rebuiltSize o rect useCache old i) ->
  let ms := measureStore o rect useCache old in
  (forall i j mi mj,
     0 <= i -> i <= j ->
     JsArray.get ms i = Some mi -> JsArray.get ms j = Some mj ->
     m_start mi <= m_start mj /\ m_end mi <= m_end mj)
  /\ (forall i m, 0 <= i -> JsArray.get ms i = Some m ->
        m_start m = sizesBefore ms (Z.to_nat i))
  /\ (itemCount o <> O ->
      totalEnd ms = Some (sizesBefore ms (itemCount o))).
Proof.
  intros Hs ms.
  pose proof (measureStore_spec o rect useCache old) as S. cbv zeta in S.
  fold ms in S. destruct S as (HL & Hin).
  pose proof (measureStore_chained o rect useCache old) as Hc. fold ms in Hc.
  pose proof (measureStore_full o rect useCache old) as Hf. fold ms in Hf.
  assert (Hsz : forall k m, JsArray.get ms k = Some m -> 0 <= m_size m).
  { intros k m H. pose proof (get_some_range _ _ _ H) as R.
    unfold JsArray.len in R. rewrite Hin in H by lia.
    injection H as <-. cbn. apply Hs. }
  assert (Hst : forall i m, 0 <= i -> JsArray.get ms i = Some m ->
                            m_start m = sizesBefore ms (Z.to_nat i)).
  { intros i m Hi E. apply (chained_start ms Hc Hf).
    now rewrite Z2Nat.id by lia. }
  assert (Hen : forall i m, 0 <= i -> JsArray.get ms i = Some m ->
                            m_end m = sizesBefore ms (S (Z.to_nat i))).
  { intros i m Hi E. cbn [sizesBefore]. rewrite Z2Nat.id by lia.
    rewrite E, <- (Hst i m Hi E). exact (proj2 (Hc _ _ E)). }
  split; [|split; [exact Hst|]].
  - intros i j mi mj Hi Hij Ei Ej.
    rewrite (Hst i mi), (Hst j mj), (Hen i mi), (Hen j mj) by (auto; lia).
    split; apply sizesBefore_mono; auto; lia.
  - intros Hn. unfold totalEnd, JsArray.len. rewrite HL.
    destruct (JsArray.get ms (Z.of_nat (itemCount o) - 1)) as [m|] eqn:E.
    + cbn. f_equal.
      rewrite (Hen (Z.of_nat (itemCount o) - 1) m ltac:(lia) E).
      f_equal. lia.
    + exfalso. apply (Hf (Z.of_nat (itemCount o) - 1));
        [unfold JsArray.len; lia | exact E].
Qed.

Lemma measureItems_monotone_witness :
  let ms := measureStore unevenOptions (mkRect 0 0) false [] in
  totalEnd ms = Some (sizesBefore ms (itemCount unevenOptions)).
Proof.
  refine (proj2 (proj2 (measureItems_monotone unevenOptions (mkRect 0 0)
                          false [] _)) _).
  - intros i. unfold rebuiltSize, getItemSize. cbn.
    destruct (i =? 1); lia.
  - vm_compute. discriminate.
Defined.

(** ** The window of the calculator *)

(** X3.  In dynamic mode every item before visibleStart ends strictly
    before the scroll offset, and the scan stopped at visibleStart because
    that item ends at or after the offset or because its start is not below
    the next start (taken as 0 past the end); in a store whose entries follow
    one another with positive sizes, visibleStart is the first item that
    ends at or after the offset, or else the last item. *)
Theorem getCalcData_dynamic_start (o : Options) (rect : Rect) (ms : Store)
    (scrollOffset : Z) (c : CalcData) :
  store_ok ms ->
  getCalcData o true rect ms scrollOffset = Some c ->
  (forall j, 0 <= j < vStart c ->
     exists m, JsArray.get ms j = Some m /\ m_end m < scrollOffset)
  /\ exists m, JsArray.get ms (vStart c) = Some m
       /\ (scrollOffset <= m_end m
           \/ nextStart ms (vStart c) <= m_start m)
       /\ (store_chained ms ->
           (forall k mk, JsArray.get ms k = Some mk -> 0 < m_size mk) ->
           vStart c = JsArray.len ms - 1 \/ scrollOffset <= m_end m).
Proof.
  intros Hok H.
  destruct (getCalcData_inv _ _ _ _ _ c H)
    as (v & m0 & x & mS & mE & mL & Hv & E0 & _ & _ & _ & _ & ->).
  cbn [vStart]. pose proof (get_some_range _ _ _ E0) as Rv.
  unfold findStart in Hv.
  destruct (scanStart_in_range ms scrollOffset Hok ltac:(lia))
    as (r & Hr & R & Hin & (m & Em & Hstop)).
  rewrite Hr in Hv. injection Hv as ->. split.
  - intros j Hj. destruct (Hin j Hj) as (mj & Ej & _ & B).
    destruct (Hok j ltac:(lia)) as (mj' & Ej' & _ & _ & Hend).
    rewrite Ej in Ej'. injection Ej' as <-. exists mj. split; [exact Ej|lia].
  - destruct (Hok v ltac:(lia)) as (m' & Em' & _ & _ & Hend).
    rewrite Em in Em'. injection Em' as <-.
    exists m. split; [exact Em|]. split; [lia|].
    intros Hc Hpos. destruct (Z.eq_dec v (JsArray.len ms - 1)); [now left|].
    right. destruct (Hok (v + 1) ltac:(lia)) as (mn & En & _).
    unfold nextStart in Hstop. rewrite En in Hstop.
    destruct (Hc _ _ En) as (Hs & _). unfold prevEndOf in Hs.
    replace (v + 1 - 1) with v in Hs by lia. rewrite Em in Hs.
    specialize (Hpos _ _ Em). lia.
Qed.

Lemma getCalcData_dynamic_start_witness :
  let c := mkCalc 1 2 2 2 10 110 in
  (forall j, 0 <= j < vStart c ->
     exists m, JsArray.get unevenStore j = Some m /\ m_end m < 115)
  /\ exists m, JsArray.get unevenStore (vStart c) = Some m
       /\ (115 <= m_end m \/ nextStart unevenStore (vStart c) <= m_start m)
       /\ (store_chained unevenStore ->
           (forall k mk, JsArray.get unevenStore k = Some mk ->
                         0 < m_size mk) ->
           vStart c = JsArray.len unevenStore - 1 \/ 115 <= m_end m).
Proof.
  apply (getCalcData_dynamic_start unevenOptions (mkRect 0 5) unevenStore
           115 (mkCalc 1 2 2 2 10 110)).
  - apply store_okb_sound. vm_compute. reflexivity.
  - vm_compute. reflexivity.
Defined.

(** The stop scan in a store whose entries follow one another: the running
    start is the start of the entry the scan stands on. *)
Lemma scanStop_chained (ms : Store) (scrollOffset outerSize : Z) :
  store_ok ms -> store_chained ms ->
  forall fuel stop cur,
    0 <= stop -> stop + Z.of_nat fuel = JsArray.len ms ->
    cur = prevEndOf ms stop ->
    exists r, scanStop ms scrollOffset outerSize fuel stop cur = Some r
      /\ stop <= r <= JsArray.len ms
      /\ (forall j, stop <= j < r ->
                    prevEndOf ms j < scrollOffset + outerSize)
      /\ (r < JsArray.len ms -> scrollOffset + outerSize <= prevEndOf ms r).
Proof.
  intros Hok Hc. induction fuel as [|fuel IH]; intros stop cur H0 Hf Hcur;
    cbn [scanStop].
  - exists stop. split; [reflexivity|]. repeat split; intros; lia.
  - destruct (Z.ltb_spec stop (JsArray.len ms)) as [L|L]; [|lia].
    destruct (Z.ltb_spec cur (scrollOffset + outerSize)) as [A|A];
      cbn [andb].
    + destruct (Hok stop ltac:(lia)) as (m & E & _). rewrite E.
      destruct (IH (stop + 1) (cur + m_size m)) as (r & Hr & R & Hin & Hs);
        [lia | lia | |].
      { unfold prevEndOf. replace (stop + 1 - 1) with stop by lia.
        rewrite E. destruct (Hc _ _ E) as (Hst & Hen). lia. }
      exists r. split; [exact Hr|]. split; [lia|]. split; [|exact Hs].
      intros j Hj. destruct (Z.eq_dec j stop) as [->|N];
        [lia | apply Hin; lia].
    + exists stop. split; [reflexivity|]. split; [lia|].
      split; intros; lia.
Qed.

(** X4.  In a store whose entries follow one another, every item from
    visibleStart to visibleStop starts before the end of the viewport
    (scrollOffset + viewport size), and visibleStop is the last item or the
    item after it starts at or past that end. *)
Theorem getCalcData_visible_stop (o : Options) (dyn : bool) (rect : Rect)
    (ms : Store) (scrollOffset : Z) (c : CalcData) :
  store_ok ms -> store_chained ms ->
  getCalcData o dyn rect ms scrollOffset = Some c ->
  (forall j, vStart c <= j <= vStop c ->
     exists m, JsArray.get ms j = Some m
               /\ m_start m < scrollOffset + sizeOf o rect)
  /\ (vStop c = JsArray.len ms - 1
      \/ exists m, JsArray.get ms (vStop c + 1) = Some m
                   /\ scrollOffset + sizeOf o rect <= m_start m).
Proof.
  intros Hok Hc H.
  destruct (getCalcData_inv _ _ _ _ _ c H)
    as (v & m0 & x & mS & mE & mL & Hv & E0 & Hx & _ & _ & _ & ->).
  cbn [vStart vStop]. pose proof (get_some_range _ _ _ E0) as Rv.
  destruct (scanStop_chained ms scrollOffset (sizeOf o rect) Hok Hc
              (Z.to_nat (JsArray.len ms - v)) v (m_start m0))
    as (r & Hr & R & Hin & Hs); [lia | lia | exact (proj1 (Hc _ _ E0)) |].
  rewrite Hx in Hr. injection Hr as <-. split.
  - intros j Hj. destruct (Hok j ltac:(lia)) as (m & E & _).
    exists m. split; [exact E|]. rewrite (proj1 (Hc _ _ E)).
    apply Hin. lia.
  - destruct (Z.eq_dec (x - 1) (JsArray.len ms - 1)); [now left|].
    right. replace (x - 1 + 1) with x by lia.
    destruct (Hok x ltac:(lia)) as (m & E & _).
    exists m. split; [exact E|]. rewrite (proj1 (Hc _ _ E)).
    apply Hs. lia.
Qed.

Lemma getCalcData_visible_stop_witness :
  let c := mkCalc 0 1 0 0 0 210 in
  (forall j, vStart c <= j <= vStop c ->
     exists m, JsArray.get unevenStore j = Some m
               /\ m_start m < 0 + sizeOf unevenOptions (mkRect 0 5))
  /\ (vStop c = JsArray.len unevenStore - 1
      \/ exists m, JsArray.get unevenStore (vStop c + 1) = Some m
                   /\ 0 + sizeOf unevenOptions (mkRect 0 5) <= m_start m).
Proof.
  apply (getCalcData_visible_stop unevenOptions false (mkRect 0 5)
           unevenStore 0 (mkCalc 0 1 0 0 0 210)).
  - apply store_okb_sound. vm_compute. reflexivity.
  - apply measureStore_chained.
  - vm_compute. reflexivity.
Defined.

(** ** The item list of a run *)

Lemma renderRange_items ms w stickies off a b mg k : forall i r,
  renderRange ms w stickies off a b mg k i = Some r ->
  map index r = zrange i k
  /\ Forall (fun it =>
       exists m, JsArray.get ms (index it) = Some m
         /\ start it + mg = m_start m /\ size it = m_size m
         /\ width it = w /\ isScrolling it = b
         /\ isSticky it = existsb (Z.eqb (index it)) stickies
         /\ measureRef it
            = Some (mkProbe (index it) (m_start m) (m_size m) off a b)) r.
Proof.
  induction k as [|k IH]; intros i r H; cbn [renderRange] in H.
  - injection H as <-. split; [reflexivity | constructor].
  - unfold bindO in H.
    destruct (JsArray.get ms i) as [m|] eqn:E; [|discriminate].
    destruct (renderRange _ _ _ _ _ _ _ k (i + 1)) as [rest|] eqn:Er;
      [|discriminate].
    injection H as <-. destruct (IH _ _ Er) as (Hm & Hf).
    cbn [map zrange index]. split; [now rewrite Hm|].
    constructor; [|exact Hf].
    exists m. cbn. repeat split; auto. lia.
Qed.

Lemma stickyItem_inv ms w stickies ux c it :
  stickyItem ms w stickies ux c = Some (Some it) ->
  In (index it) stickies /\ index it < oStart c
  /\ start it = 0 /\ isSticky it = true /\ measureRef it = None
  /\ exists m, JsArray.get ms (index it) = Some m /\ size it = m_size m.
Proof.
  unfold stickyItem, bindO. destruct stickies as [|x xs] eqn:Es;
    [discriminate|].
  rewrite <- Es. clear Es x xs.
  destruct (findNearestBinarySearch _ _ _ _) as [j|]; [|discriminate].
  destruct (JsArray.get (map Some stickies) j) as [k|] eqn:Ek;
    [|discriminate].
  destruct (Z.ltb_spec k (oStart c)) as [L|L]; [|discriminate].
  destruct (JsArray.get ms k) as [m|] eqn:Em; [|discriminate].
  intros [= <-]. cbn. repeat split; auto; [|eauto].
  pose proof (get_some_range _ _ _ Ek) as R. unfold JsArray.len in R.
  rewrite length_map in R.
  rewrite (get_map_Some stickies 0 j R) in Ek. injection Ek as <-.
  apply nth_In. lia.
Qed.

(** X5.  The item list a run hands over is the overscanned range, index by
    index from overscanStart to overscanStop, each item carrying the size of
    its entry and a start relative to the margin (item start + margin =
    entry start), preceded by at most one pinned item: a sticky index that
    lies before the range, at start 0, with an inert measureRef. *)
Theorem handleScroll_item_list
    (shouldUpdate : list Item -> list Item -> bool) (o : Options)
    (off : Z) (isS ux : bool) (s s' : State) (st : Style) (c : CalcData) :
  handleScroll shouldUpdate o off isS ux s = Ok tt s' ->
  innerRef s = Some st -> itemCount o <> O ->
  getCalcData o (hasDynamicSizeRef s) (outerRectRef s) (msDataRef s) off
  = Some c ->
  exists pinned regular,
    items s' = (if shouldUpdate (items s) (pinned ++ regular)
                then pinned ++ regular else items s)
    /\ (length pinned <= 1)%nat
    /\ Forall (fun it =>
         In (index it)
            (match stickyIndicesRef s with Some l => l | None => [] end)
         /\ index it < oStart c /\ start it = 0 /\ isSticky it = true
         /\ measureRef it = None) pinned
    /\ map index regular
       = zrange (oStart c) (Z.to_nat (oStop c - oStart c + 1))
    /\ Forall (fun it =>
         exists m, JsArray.get (msDataRef s) (index it) = Some m
           /\ start it + margin c = m_start m /\ size it = m_size m)
         regular.
Proof.
  intros H Hin Hn Hc.
  destruct (handleScroll_ok_inv _ _ _ _ _ _ _ _ _ H Hin Hn Hc)
    as (regular & sticky & Hr & Hs).
  destruct (handleScroll_ok shouldUpdate o off isS ux s st c regular sticky
              Hin Hn Hc Hr Hs) as (s2 & H2 & Hitems & _).
  rewrite H in H2. injection H2 as <-.
  destruct (renderRange_items _ _ _ _ _ _ _ _ _ _ Hr) as (Hm & Hf).
  exists (match sticky with Some it => [it] | None => [] end), regular.
  split; [destruct sticky; exact Hitems|].
  split; [destruct sticky; cbn; lia|].
  split; [|split; [exact Hm|]].
  - destruct sticky as [it|]; [|constructor].
    destruct (stickyItem_inv _ _ _ _ _ _ Hs) as (A & B & C & D & E & _).
    repeat constructor; auto.
  - eapply Forall_impl; [|exact Hf].
    intros it (m & E & A & B & _). eauto.
Qed.

Lemma handleScroll_item_list_witness :
  exists s' pinned regular,
    handleScroll alwaysUpdate stickyOptions 6100 true false stickyMounted
    = Ok tt s'
    /\ items s' = pinned ++ regular
    /\ (length pinned <= 1)%nat
    /\ map index regular = zrange 60 7.
Proof.
  destruct (handleScroll alwaysUpdate stickyOptions 6100 true false
              stickyMounted) as [[] s'|s'] eqn:E;
    [|vm_compute in E; discriminate E].
  destruct (handleScroll_item_list alwaysUpdate stickyOptions 6100 true false
              stickyMounted s' (mkStyle (Some 0) None (Some 12000) None)
              (mkCalc 60 66 61 65 6000 6000) E)
    as (pinned & regular & Hi & Hl & _ & Hm & _).
  - vm_compute. reflexivity.
  - vm_compute. discriminate.
  - vm_compute. reflexivity.
  - exists s', pinned, regular. repeat split; assumption.
Defined.

(** X6.  With an item count of 0 a run on a mounted inner element publishes
    the empty list and returns, leaving the store, the inner element's style
    and the recorded visible stop as they were; it never calls the
    calculator, which would throw on the empty store. *)
Theorem handleScroll_no_items
    (shouldUpdate : list Item -> list Item -> bool) (o : Options)
    (off : Z) (isS ux : bool) (s : State) (st : Style) :
  itemCount o = O -> innerRef s = Some st ->
  (exists s',
     handleScroll shouldUpdate o off isS ux s = Ok tt s'
     /\ items s' = [] /\ innerRef s' = innerRef s
     /\ msDataRef s' = msDataRef s /\ prevVStopRef s' = prevVStopRef s
     /\ calls s' = calls s ++ firstLoadRequest o s off)
  /\ forall dyn rect, getCalcData o dyn rect [] off = None.
Proof.
  intros Hn Hin. split.
  - unfold handleScroll, firstLoadRequest. unfold bind at 1. cbn [get].
    rewrite Hin, Hn. cbn [isSome negb Nat.eqb].
    unfold bind, when, logCall, modify, ret.
    destruct (loadMore o && negb (isMountedRef s) && negb (pageLoaded s 0));
      eexists; (split; [reflexivity|]); cbn; rewrite ?app_nil_r, ?Hin;
      repeat split; reflexivity.
  - intros [|] rect; reflexivity.
Qed.

Lemma handleScroll_no_items_witness :
  let s := run alwaysUpdate intFloat [EvMount] (initState None None) in
  exists s',
    handleScroll alwaysUpdate (fixedOptions 0 100 1) 0 true false s = Ok tt s'
    /\ items s' = [] /\ innerRef s' = innerRef s
    /\ msDataRef s' = msDataRef s /\ prevVStopRef s' = prevVStopRef s
    /\ calls s' = calls s ++ firstLoadRequest (fixedOptions 0 100 1) s 0.
Proof.
  cbv zeta.
  refine (proj1 (handleScroll_no_items alwaysUpdate (fixedOptions 0 100 1) 0
                   true false _ (mkStyle None None None None) _ _)).
  - reflexivity.
  - reflexivity.
Defined.

(** ** What the handlers leave alone *)

Ltac handleScroll_keeps :=
  unfold handleScroll, logCall, setInnerStyle, publishItems,
    resetIsScrolling, resetUserScroll;
  keeps_steps same_field.

Section ReadOnly.
Variable shouldUpdate : list Item -> list Item -> bool.

Lemma handleScroll_keeps_store o off a b :
  keeps msDataRef (handleScroll shouldUpdate o off a b).
Proof. handleScroll_keeps. Qed.

Lemma handleScroll_keeps_outer o off a b :
  keeps outerRef (handleScroll shouldUpdate o off a b).
Proof. handleScroll_keeps. Qed.

Lemma handleScroll_keeps_offset o off a b :
  keeps scrollOffsetRef (handleScroll shouldUpdate o off a b).
Proof. handleScroll_keeps. Qed.

Lemma handleScroll_keeps_rect o off a b :
  keeps outerRectRef (handleScroll shouldUpdate o off a b).
Proof. handleScroll_keeps. Qed.

Lemma handleScroll_keeps_mounted o off a b :
  keeps isMountedRef (handleScroll shouldUpdate o off a b).
Proof. handleScroll_keeps. Qed.

Lemma handleScroll_keeps_userScroll o off a b :
  keeps userScrollRef (handleScroll shouldUpdate o off a b).
Proof. handleScroll_keeps. Qed.

Lemma handleScroll_keeps_prevItem o off a b :
  keeps prevItemIdxRef (handleScroll shouldUpdate o off a b).
Proof. handleScroll_keeps. Qed.

Lemma handleScroll_keeps_frames o off a b :
  keeps (fun s => (frames s, timeouts s, scrollToRafRef s, rosRef s))
    (handleScroll shouldUpdate o off a b).
Proof. handleScroll_keeps. Qed.

(** X7.  A run of [handleScroll], whether it returns or throws, only
    reads the store, the container, the viewport rectangle and the recorded
    scroll offset: it never moves the container, never rewrites an entry,
    never changes the mounted, user-scroll or dynamic-size flags, and never
    requests or cancels a frame, a re-issue or an observer. *)
Theorem handleScroll_read_only (o : Options) (off : Z) (a b : bool)
    (s : State) :
  let s' := finalState (handleScroll shouldUpdate o off a b s) in
  msDataRef s' = msDataRef s /\ outerRef s' = outerRef s
  /\ scrollOffsetRef s' = scrollOffsetRef s
  /\ outerRectRef s' = outerRectRef s
  /\ isMountedRef s' = isMountedRef s /\ userScrollRef s' = userScrollRef s
  /\ hasDynamicSizeRef s' = hasDynamicSizeRef s
  /\ prevItemIdxRef s' = prevItemIdxRef s
  /\ frames s' = frames s /\ timeouts s' = timeouts s
  /\ scrollToRafRef s' = scrollToRafRef s /\ rosRef s' = rosRef s.
Proof.
  cbv zeta.
  pose proof (handleScroll_keeps_frames o off a b s) as F. cbv beta in F.
  injection F as F1 F2 F3 F4.
  repeat split;
    [ apply handleScroll_keeps_store | apply handleScroll_keeps_outer
    | apply handleScroll_keeps_offset | apply handleScroll_keeps_rect
    | apply handleScroll_keeps_mounted | apply handleScroll_keeps_userScroll
    | apply handleScroll_keeps_flag | apply handleScroll_keeps_prevItem
    | assumption .. ].
Qed.

(** The state a probe's callback ends in. *)
Lemma probe_final o env target ro measured s :
  finalState (probe shouldUpdate o env target ro measured s) =
  if measured =? 0 then rosDelete target s
  else if negb (measured =? pe_size env)
          || negb (pe_start env =? prevEndOf (msDataRef s) (pe_i env))
  then match handleScroll shouldUpdate o (pe_scrollOffset env)
               (pe_isScrolling env) (pe_uxScrolling env)
               (probeWritten o env measured s) with
       | Ok _ s3 =>
           rosSet target ro
             (set_prevItemIdxRef (pe_i env) (set_hasDynamicSizeRef true s3))
       | Throw s3 => s3
       end
  else rosSet target ro (set_prevItemIdxRef (pe_i env) s).
Proof.
  unfold probe. destruct (measured =? 0); [reflexivity|].
  rewrite finalState_bind. cbn [get]. cbv zeta.
  destruct (negb (measured =? pe_size env) || _); cbn [when];
    [|reflexivity].
  rewrite finalState_bind. unfold bind at 1 2 3.
  unfold probeWritten, when, scrollTo, modify.
  destruct (_ && _); cbn [finalState ret];
    destruct (handleScroll _ _ _ _ _ _) as [[] s3|s3]; reflexivity.
Qed.

(** X8.  A probe's callback never re-indexes the store: whatever it
    measures, the length of the store and every entry other than its own are
    as before (so later starts go stale until the next rebuild).  A zero
    measurement changes nothing but the observer map; a non-zero measurement
    that differs from the rendered size, or comes with a stale start,
    replaces the probe's own entry by the measure of the new size placed
    after the preceding entry. *)
Theorem probe_store_effect (o : Options) (env : ProbeEnv)
    (target ro : nat) (measured : Z) (s : State) :
  0 <= pe_i env < JsArray.len (msDataRef s) ->
  let s' := finalState (probe shouldUpdate o env target ro measured s) in
  length (msDataRef s') = length (msDataRef s)
  /\ (forall j, j <> pe_i env ->
        JsArray.get (msDataRef s') j = JsArray.get (msDataRef s) j)
  /\ (measured = 0 -> s' = rosDelete target s)
  /\ (measured <> 0 ->
      measured <> pe_size env
      \/ pe_start env <> prevEndOf (msDataRef s) (pe_i env) ->
      JsArray.get (msDataRef s') (pe_i env)
      = Some (mkMeasure (pe_i env) (prevEndOf (msDataRef s) (pe_i env))
                (prevEndOf (msDataRef s) (pe_i env) + measured) measured)).
Proof.
  intros Hi. cbv zeta. rewrite probe_final.
  assert (W : msDataRef (probeWritten o env measured s)
              = JsArray.set (msDataRef s) (pe_i env)
                  (getMeasure (msDataRef s) (pe_i env) measured)).
  { unfold probeWritten, when, scrollTo, modify.
    destruct (_ && _); cbn; [destruct (outerRef s)|]; reflexivity. }
  pose proof (handleScroll_keeps_store o (pe_scrollOffset env)
                (pe_isScrolling env) (pe_uxScrolling env)
                (probeWritten o env measured s)) as K.
  destruct (Z.eqb_spec measured 0) as [E0|E0].
  { repeat split; try reflexivity; intros; congruence. }
  destruct (negb (measured =? pe_size env)
            || negb (pe_start env =? prevEndOf (msDataRef s) (pe_i env)))
    eqn:C.
  - assert (M : msDataRef
                  (match handleScroll shouldUpdate o (pe_scrollOffset env)
                           (pe_isScrolling env) (pe_uxScrolling env)
                           (probeWritten o env measured s) with
                   | Ok _ s3 =>
                       rosSet target ro
                         (set_prevItemIdxRef (pe_i env)
                            (set_hasDynamicSizeRef true s3))
                   | Throw s3 => s3
                   end)
                = JsArray.set (msDataRef s) (pe_i env)
                    (getMeasure (msDataRef s) (pe_i env) measured)).
    { rewrite <- W, <- K.
      destruct (handleScroll _ _ _ _ _ _) as [[] s3|s3]; reflexivity. }
    rewrite M. split; [apply length_set; lia|].
    split; [intros j Hj; apply get_set_other; lia|].
    split; [intros; congruence|].
    intros _ _. rewrite get_set_same by lia. reflexivity.
  - split; [reflexivity|]. split; [reflexivity|].
    split; [intros; congruence|].
    intros _ [A|A]; exfalso;
      apply orb_false_iff in C; destruct C as (C1 & C2);
      rewrite negb_false_iff in C1, C2;
      [apply Z.eqb_eq in C1 | apply Z.eqb_eq in C2]; congruence.
Qed.

End ReadOnly.

Lemma probe_store_effect_witness :
  let o := fixedOptions 2 100 1 in
  let s := run alwaysUpdate intFloat
             [EvMount; EvResize o (mkRect 300 500)] (initState None None) in
  let s' := finalState
              (probe alwaysUpdate o (mkProbe 0 0 100 0 false false) 0 0 30
                 s) in
  JsArray.get (msDataRef s') 0 = Some (mkMeasure 0 0 30 30)
  /\ JsArray.get (msDataRef s') 1 = JsArray.get (msDataRef s) 1.
Proof.
  cbv zeta.
  destruct (probe_store_effect alwaysUpdate (fixedOptions 2 100 1)
              (mkProbe 0 0 100 0 false false) 0 0 30
              (run alwaysUpdate intFloat
                 [EvMount; EvResize (fixedOptions 2 100 1) (mkRect 300 500)]
                 (initState None None)))
    as (_ & Hother & _ & Hown).
  - vm_compute. split; [discriminate | reflexivity].
  - split.
    + apply Hown; [discriminate | left; discriminate].
    + apply Hother. discriminate.
Defined.

(** ** Scroll and resize events *)

Ltac notices_field :=
  unfold resizeNotices; cbn;
  repeat match goal with
         | |- context [match ?x with _ => _ end] => destruct x
         end;
  cbn; rewrite ?flat_map_app; cbn; rewrite ?app_nil_r; reflexivity.

Section Events.
Variable shouldUpdate : list Item -> list Item -> bool.
Variable fp : FloatOps.

Lemma handleScroll_keeps_notices o off a b :
  keeps (fun s => resizeNotices (calls s))
    (handleScroll shouldUpdate o off a b).
Proof.
  unfold handleScroll, logCall, setInnerStyle, publishItems,
    resetIsScrolling, resetUserScroll.
  keeps_steps notices_field.
Qed.

Lemma scrollHandler_keeps_outer o :
  keeps outerRef (scrollHandler shouldUpdate o).
Proof.
  pose proof (handleScroll_keeps_outer shouldUpdate).
  unfold scrollHandler. keeps_steps same_field.
Qed.

(** X9.  Scroll events that bring no movement are ignored: after a run of
    the scroll handler that returned, whose recorded offset is then the
    container's position, a further scroll event leaves the whole state as it
    is (no new item list, no notice, no load request). *)
Theorem scrollHandler_repeat (o : Options) (s s' : State) :
  scrollHandler shouldUpdate o s = Ok tt s' ->
  scrollHandler shouldUpdate o s' = Ok tt s'
  /\ forall el, outerRef s = Some el -> scrollOffsetRef s' = scrollPos o el.
Proof.
  intros H.
  pose proof (scrollHandler_keeps_outer o s) as K. rewrite H in K.
  cbn [finalState] in K.
  destruct (outerRef s) as [el|] eqn:E.
  - pose proof (scrollHandler_syncs shouldUpdate o s s' el E H) as S.
    split; [|intros el' [= <-]; exact S].
    unfold scrollHandler. unfold bind at 1. cbn [get]. rewrite K, S.
    now rewrite Z.eqb_refl.
  - split; [|discriminate].
    unfold scrollHandler. unfold bind at 1. cbn [get]. rewrite K.
    reflexivity.
Qed.

(** X10.  A resize notification that is handled to the end records the new
    rectangle, rebuilds the store for it (reusing cached sizes exactly when a
    dynamic size has been seen), and marks the hook mounted.  [onResize] is
    called with the rectangle exactly when the hook was already mounted, the
    width or the height changed, and an observer is set: never for the first
    notification. *)
Theorem outerResized_effect (o : Options) (rect : Rect) (s s' : State) :
  outerResized shouldUpdate fp o rect s = Ok tt s' ->
  outerRectRef s' = rect
  /\ msDataRef s'
     = measureStore o rect (hasDynamicSizeRef s) (msDataRef s)
  /\ isMountedRef s' = true
  /\ hasDynamicSizeRef s' = hasDynamicSizeRef s
  /\ resizeNotices (calls s')
     = resizeNotices (calls s)
       ++ (if isMountedRef s
              && negb ((r_width (outerRectRef s) =? r_width rect)
                       && (r_height (outerRectRef s) =? r_height rect))
              && onResize o
           then [rect] else []).
Proof.
  unfold outerResized. unfold bind at 1. cbn [get]. cbv zeta.
  unfold bind at 1. unfold modify at 1. unfold bind at 1.
  unfold measureItems at 1, modify at 1.
  set (s1 := set_msDataRef _ _).
  assert (E1 : s1 = set_msDataRef
                      (measureStore o rect (hasDynamicSizeRef s)
                         (msDataRef s)) (set_outerRectRef rect s))
    by reflexivity.
  unfold bind at 1.
  pose proof (handleScroll_keeps_store shouldUpdate o (scrollOffsetRef s)
                false false s1) as K1.
  pose proof (handleScroll_keeps_rect shouldUpdate o (scrollOffsetRef s)
                false false s1) as K2.
  pose proof (handleScroll_keeps_mounted shouldUpdate o (scrollOffsetRef s)
                false false s1) as K3.
  pose proof (handleScroll_keeps_flag shouldUpdate o (scrollOffsetRef s)
                false false s1) as K4.
  pose proof (handleScroll_keeps_notices o (scrollOffsetRef s)
                false false s1) as K5.
  destruct (handleScroll _ _ _ _ _ s1) as [[] s2|s2]; [|discriminate].
  cbn [finalState] in K1, K2, K3, K4, K5. cbv beta in K5.
  rewrite E1 in K1, K2, K3, K4, K5. cbn in K1, K2, K3, K4, K5.
  unfold bind, get, when, scrollTo, logCall, modify, ret.
  rewrite K3, K4.
  destruct (negb (hasDynamicSizeRef s)
            && negb (r_width (outerRectRef s) =? r_width rect));
    destruct (isMountedRef s
              && negb ((r_width (outerRectRef s) =? r_width rect)
                       && (r_height (outerRectRef s) =? r_height rect))
              && onResize o);
    intros [= <-]; cbn; destruct (outerRef s2); cbn;
    unfold resizeNotices in *; rewrite ?flat_map_app; cbn;
    rewrite ?app_nil_r, ?K1, ?K2, ?K4, ?K5; repeat split; reflexivity.
Qed.

End Events.

Lemma scrollHandler_repeat_witness :
  let s' := scrolledTo 1000 in
  scrollHandler alwaysUpdate loaderOptions s' = Ok tt s'.
Proof.
  cbv zeta.
  assert (H : scrollHandler alwaysUpdate loaderOptions
                (run alwaysUpdate intFloat
                   [EvMount; EvResize loaderOptions (mkRect 300 500);
                    EvUserScroll loaderOptions 1000]
                   (initState None None))
              = Ok tt (scrolledTo 1000))
    by (vm_compute; reflexivity).
  exact (proj1 (scrollHandler_repeat alwaysUpdate loaderOptions _ _ H)).
Defined.

Lemma outerResized_effect_witness :
  let o := mkOptions 2 (SizeNum 100) false 1 UisAbsent 500 15 false false
             true in
  let s := run alwaysUpdate intFloat
             [EvMount; EvResize o (mkRect 300 500)] (initState None None) in
  exists s',
    outerResized alwaysUpdate intFloat o (mkRect 300 400) s = Ok tt s'
    /\ isMountedRef s' = true
    /\ resizeNotices (calls s') = [mkRect 300 400].
Proof.
  cbv zeta.
  destruct (outerResized alwaysUpdate intFloat
              (mkOptions 2 (SizeNum 100) false 1 UisAbsent 500 15 false false
                 true) (mkRect 300 400)
              (run alwaysUpdate intFloat
                 [EvMount;
                  EvResize (mkOptions 2 (SizeNum 100) false 1 UisAbsent 500
                              15 false false true) (mkRect 300 500)]
                 (initState None None))) as [[] s'|s'] eqn:E;
    [|vm_compute in E; discriminate E].
  destruct (outerResized_effect alwaysUpdate intFloat _ _ _ _ E)
    as (_ & _ & Hm & _ & Hn).
  exists s'. split; [reflexivity|]. split; [exact Hm|].
  rewrite Hn. vm_compute. reflexivity.
Defined.

(** ** Load requests and the user-scroll flag *)

Section Requests.
Variable shouldUpdate : list Item -> list Item -> bool.
Variable fp : FloatOps.

(** X11.  With a positive page size, the load request of a scroll-driven run
    on a mounted hook asks for one whole page, the one that holds the item
    after the visible stop: startIndex = loadIndex * loadMoreCount,
    stopIndex - startIndex + 1 = loadMoreCount, and startIndex <=
    visibleStop + 1 <= stopIndex. *)
Theorem handleScroll_request_range (o : Options) (off : Z) (ux : bool)
    (s s' : State) (st : Style) (c : CalcData) :
  handleScroll shouldUpdate o off true ux s = Ok tt s' ->
  innerRef s = Some st -> itemCount o <> O ->
  getCalcData o (hasDynamicSizeRef s) (outerRectRef s) (msDataRef s) off
  = Some c ->
  isMountedRef s = true -> 0 < loadMoreCount o ->
  forall a, In (CallLoadMore a) (skipn (length (calls s)) (calls s')) ->
    lm_startIndex a = lm_loadIndex a * loadMoreCount o
    /\ lm_stopIndex a - lm_startIndex a + 1 = loadMoreCount o
    /\ lm_startIndex a <= vStop c + 1 <= lm_stopIndex a
    /\ lm_scrollOffset a = off.
Proof.
  intros H Hin Hn Hc Hm Hpos a Ha.
  destruct (handleScroll_ok_inv _ _ _ _ _ _ _ _ _ H Hin Hn Hc)
    as (regular & sticky & Hr & Hs).
  destruct (handleScroll_ok shouldUpdate o off true ux s st c regular sticky
              Hin Hn Hc Hr Hs) as (s2 & H2 & _ & _ & Hcalls & _).
  rewrite H in H2. injection H2 as <-.
  rewrite Hcalls in Ha. rewrite skipn_app, skipn_all, Nat.sub_diag in Ha.
  cbn [skipn app] in Ha.
  unfold firstLoadRequest, scrollNotice, loadRequest in Ha.
  rewrite Hm in Ha. rewrite andb_false_r in Ha. cbn [negb andb app] in Ha.
  destruct (onScroll o); cbn [app] in Ha;
    [destruct Ha as [Ha|Ha]; [discriminate|] |];
    (destruct (_ && _) in Ha; [|destruct Ha]);
    (destruct Ha as [[= <-]|[]]); cbn;
    pose proof (Z.mul_div_le (vStop c + 1) (loadMoreCount o) Hpos);
    pose proof (Z.mul_succ_div_gt (vStop c + 1) (loadMoreCount o) Hpos);
    repeat split; lia.
Qed.



End Requests.

(** ** Scrolling to an item *)

Section ToItem.
Variable shouldUpdate : list Item -> list Item -> bool.
Variable fp : FloatOps.

(** What a [scrollToItem] does once its reads have succeeded. *)
Lemma scrollToItem_reads o idx a smooth cb now s m mL :
  let s0 := freshened o s in
  JsArray.get (msDataRef s0) (clampIndex (msDataRef s0) idx) = Some m ->
  JsArray.get (msDataRef s0) (JsArray.len (msDataRef s0) - 1) = Some mL ->
  let outerSize := sizeOf o (outerRectRef s) in
  let target := alignTarget fp (alignOf a) m (m_end mL) outerSize
                  (scrollOffsetRef s) in
  scrollToItem fp o (ItemOpts (JNum idx) a smooth) cb now s =
  if m_end mL <=? outerSize then runUser cb s0
  else if hasDynamicSizeRef s && (Z.abs (target - scrollOffsetRef s) <=? 1)
  then runUser cb s0
  else scrollToOffset o (OffsetOpts (JNum target) smooth)
         (Some (CbAfterItem o (ItemOpts (JNum idx) a smooth) cb)) now s0.
Proof.
  cbv zeta. unfold freshened, clampIndex. intros Hm HL.
  unfold scrollToItem, asNumber. cbn [isNumber].
  unfold bind at 1. cbn [get]. unfold bind at 1.
  unfold when, measureItems, modify, ret.
  destruct (hasDynamicSizeRef s) eqn:Hd; unfold bind at 1; cbn [get];
    rewrite Hm; unfold bind at 1; unfold liftO; rewrite HL; unfold ret;
    cbn [outerRectRef set_msDataRef scrollOffsetRef hasDynamicSizeRef];
    rewrite ?Hd;
    (destruct (m_end mL <=? sizeOf o (outerRectRef s)); [reflexivity|]);
    unfold alignTarget, alignOf;
    (destruct (_ && _); reflexivity).
Qed.

(** What a [scrollToItem] without animation does, once its reads have
    succeeded. *)
Lemma scrollToItem_run o idx a smooth cb now s m mL :
  truthy smooth = false ->
  let s0 := freshened o s in
  JsArray.get (msDataRef s0) (clampIndex (msDataRef s0) idx) = Some m ->
  JsArray.get (msDataRef s0) (JsArray.len (msDataRef s0) - 1) = Some mL ->
  let outerSize := sizeOf o (outerRectRef s) in
  let target := alignTarget fp (alignOf a) m (m_end mL) outerSize
                  (scrollOffsetRef s) in
  scrollToItem fp o (ItemOpts (JNum idx) a smooth) cb now s =
  if m_end mL <=? outerSize then runUser cb s0
  else if hasDynamicSizeRef s && (Z.abs (target - scrollOffsetRef s) <=? 1)
  then runUser cb s0
  else bind (modify (set_userScrollRef false))
         (fun _ => bind (scrollTo o target)
            (fun _ => runCallback
                        (Some (CbAfterItem o (ItemOpts (JNum idx) a smooth)
                                 cb))))
         s0.
Proof.
  intros Hsm. cbv zeta. unfold freshened, clampIndex. intros Hm HL.
  unfold scrollToItem, asNumber. cbn [isNumber].
  unfold bind at 1. cbn [get]. unfold bind at 1.
  unfold when, measureItems, modify, ret.
  destruct (hasDynamicSizeRef s) eqn:Hd; unfold bind at 1; cbn [get];
    rewrite Hm; unfold bind at 1; unfold liftO; rewrite HL; unfold ret;
    cbn [outerRectRef set_msDataRef scrollOffsetRef hasDynamicSizeRef];
    rewrite ?Hd;
    (destruct (m_end mL <=? sizeOf o (outerRectRef s)); [reflexivity|]);
    unfold alignTarget, alignOf;
    (destruct (_ && _); [reflexivity|]);
    unfold scrollToOffset, asNumber; cbn [isNumber];
    unfold bind at 1; cbn [get]; rewrite Hsm; reflexivity.
Qed.

Lemma chained_mono (ms : Store) :
  store_ok ms -> store_chained ms ->
  forall i j mi mj,
    0 <= i -> i <= j ->
    JsArray.get ms i = Some mi -> JsArray.get ms j = Some mj ->
    m_start mi <= m_start mj /\ m_end mi <= m_end mj.
Proof.
  intros Hok Hc.
  assert (Hf : forall i, 0 <= i < JsArray.len ms -> JsArray.get ms i <> None).
  { intros i Hi. destruct (Hok i Hi) as (m & E & _). congruence. }
  assert (Hsz : forall k m, JsArray.get ms k = Some m -> 0 <= m_size m).
  { intros k m E. destruct (Hok k (get_some_range _ _ _ E))
      as (m' & E' & _ & P & _). congruence. }
  assert (Hst : forall i m, 0 <= i -> JsArray.get ms i = Some m ->
                            m_start m = sizesBefore ms (Z.to_nat i)).
  { intros i m Hi E. apply (chained_start ms Hc Hf).
    now rewrite Z2Nat.id by lia. }
  assert (Hen : forall i m, 0 <= i -> JsArray.get ms i = Some m ->
                            m_end m = sizesBefore ms (S (Z.to_nat i))).
  { intros i m Hi E. cbn [sizesBefore]. rewrite Z2Nat.id by lia.
    rewrite E, <- (Hst i m Hi E). exact (proj2 (Hc _ _ E)). }
  intros i j mi mj Hi Hij Ei Ej.
  rewrite (Hst i mi), (Hst j mj), (Hen i mi), (Hen j mj) by (auto; lia).
  split; apply sizesBefore_mono; auto; lia.
Qed.

(** X13.  Without animation and before any dynamic size is seen, on a
    mounted container whose content is larger than the viewport,
    [scrollToItem] clamps the index into the store, moves the container at
    once and invokes the completion callback.  Aligned to the start, the
    item's start lies inside the viewport and the position is the item's
    start unless that would scroll past the end of the content; aligned to
    the end, the item's end lies inside the viewport and the position is
    end - viewport unless the item ends within the first viewport; aligned to
    the center, the position is never past the end of the content; with the
    automatic alignment the position is the item's start, the item's end
    minus the viewport, or unchanged when the item is already fully inside. *)
Theorem scrollToItem_into_view (o : Options) (idx : Z) (a : option Align)
    (smooth : option bool) (cb : option nat) (now : Z) (s : State)
    (el : Outer) (total : Z) :
  hasDynamicSizeRef s = false -> truthy smooth = false ->
  outerRef s = Some el ->
  store_ok (msDataRef s) -> store_chained (msDataRef s) ->
  totalEnd (msDataRef s) = Some total ->
  0 <= sizeOf o (outerRectRef s) < total ->
  exists s' el' m,
    scrollToItem fp o (ItemOpts (JNum idx) a smooth) cb now s = Ok tt s'
    /\ JsArray.get (msDataRef s) (clampIndex (msDataRef s) idx) = Some m
    /\ outerRef s' = Some el'
    /\ calls s' = calls s ++ completion cb
    /\ userScrollRef s' = false
    /\ msDataRef s' = msDataRef s
    /\ let p := scrollPos o el' in
       let outerSize := sizeOf o (outerRectRef s) in
       match alignOf a with
       | AlignStart =>
           0 <= p <= total - outerSize
           /\ p <= m_start m <= p + outerSize
           /\ (p = m_start m \/ p = total - outerSize)
       | AlignEnd =>
           0 <= p <= total - outerSize
           /\ p <= m_end m <= p + outerSize
           /\ (p = m_end m - outerSize \/ p = 0)
       | AlignCenter => p <= total - outerSize
       | AlignAuto =>
           p = m_start m \/ p = m_end m - outerSize
           \/ (p = scrollOffsetRef s
               /\ p <= m_start m /\ m_end m <= p + outerSize)
       end.
Proof.
  intros Hd Hsm Hel Hok Hc Ht Hsize.
  unfold totalEnd in Ht.
  destruct (JsArray.get (msDataRef s) (JsArray.len (msDataRef s) - 1))
    as [mL|] eqn:EL; [|discriminate].
  cbn in Ht. injection Ht as <-.
  pose proof (get_some_range _ _ _ EL) as RL.
  destruct (Hok (clampIndex (msDataRef s) idx)
              ltac:(unfold clampIndex; lia)) as (m & Em & Ps & Pz & Pe).
  destruct (chained_mono _ Hok Hc (clampIndex (msDataRef s) idx)
              (JsArray.len (msDataRef s) - 1) m mL
              ltac:(unfold clampIndex; lia) ltac:(unfold clampIndex; lia)
              Em EL) as (_ & Hle).
  assert (F : freshened o s = s) by (unfold freshened; now rewrite Hd).
  pose proof (scrollToItem_run o idx a smooth cb now s m mL Hsm) as R.
  cbv zeta in R. rewrite F in R. specialize (R Em EL). rewrite R.
  destruct (Z.leb_spec (m_end mL) (sizeOf o (outerRectRef s))); [lia|].
  rewrite Hd. cbn [andb].
  unfold scrollTo, runCallback, runUser, logCall, bind, get, modify, ret.
  cbn. rewrite Hel. cbn. rewrite Hd. cbn.
  set (p := alignTarget fp (alignOf a) m (m_end mL)
              (sizeOf o (outerRectRef s)) (scrollOffsetRef s)).
  assert (Hp : scrollPos o (if horizontal o then mkOuter (scrollTop el) p
                            else mkOuter p (scrollLeft el)) = p)
    by (unfold scrollPos; destruct (horizontal o); reflexivity).
  assert (Hprop :
    match alignOf a with
    | AlignStart =>
        0 <= p <= m_end mL - sizeOf o (outerRectRef s)
        /\ p <= m_start m <= p + sizeOf o (outerRectRef s)
        /\ (p = m_start m \/ p = m_end mL - sizeOf o (outerRectRef s))
    | AlignEnd =>
        0 <= p <= m_end mL - sizeOf o (outerRectRef s)
        /\ p <= m_end m <= p + sizeOf o (outerRectRef s)
        /\ (p = m_end m - sizeOf o (outerRectRef s) \/ p = 0)
    | AlignCenter => p <= m_end mL - sizeOf o (outerRectRef s)
    | AlignAuto =>
        p = m_start m \/ p = m_end m - sizeOf o (outerRectRef s)
        \/ (p = scrollOffsetRef s
            /\ p <= m_start m /\ m_end m <= p + sizeOf o (outerRectRef s))
    end).
  { unfold p, alignTarget. destruct (alignOf a); cbv zeta;
      repeat match goal with
             | |- context [if ?x <=? ?y then _ else _] =>
                 destruct (Z.leb_spec x y)
             | |- context [if ?x <? ?y then _ else _] =>
                 destruct (Z.ltb_spec x y)
             end; lia. }
  destruct cb as [id|]; cbn;
    do 3 eexists; (split; [reflexivity|]); (split; [exact Em|]);
    (split; [reflexivity|]); rewrite ?app_nil_r;
    (split; [reflexivity|]); (split; [reflexivity|]);
    (split; [reflexivity|]); cbv zeta; rewrite Hp; exact Hprop.
Qed.

(** X14.  When the whole content fits the viewport, [scrollToItem] does not
    scroll, with or without animation: the container, the user-scroll flag
    and the scheduled work are untouched and the completion callback is
    invoked once, at once.  On an empty store it returns without invoking the
    callback at all. *)
Theorem scrollToItem_fits (o : Options) (idx : Z) (a : option Align)
    (smooth : option bool) (cb : option nat) (now : Z) (s : State) :
  let s0 := freshened o s in
  (forall m total,
     JsArray.get (msDataRef s0) (clampIndex (msDataRef s0) idx) = Some m ->
     totalEnd (msDataRef s0) = Some total ->
     total <= sizeOf o (outerRectRef s) ->
     exists s',
       scrollToItem fp o (ItemOpts (JNum idx) a smooth) cb now s = Ok tt s'
       /\ outerRef s' = outerRef s /\ userScrollRef s' = userScrollRef s
       /\ calls s' = calls s ++ completion cb
       /\ frames s' = frames s /\ timeouts s' = timeouts s
       /\ scrollToRafRef s' = scrollToRafRef s)
  /\ (msDataRef s0 = [] ->
      scrollToItem fp o (ItemOpts (JNum idx) a smooth) cb now s = Ok tt s0).
Proof.
  cbv zeta. split.
  - intros m total Em Ht Hle. unfold totalEnd in Ht.
    destruct (JsArray.get (msDataRef (freshened o s)) _) as [mL|] eqn:EL
      in Ht; [|discriminate].
    cbn in Ht. injection Ht as <-.
    pose proof (scrollToItem_reads o idx a smooth cb now s m mL) as R.
    cbv zeta in R. specialize (R Em EL). rewrite R.
    destruct (Z.leb_spec (m_end mL) (sizeOf o (outerRectRef s))); [|lia].
    unfold freshened, runUser, logCall, modify, ret.
    destruct (hasDynamicSizeRef s), cb as [id|]; cbn;
      eexists; (split; [reflexivity|]); cbn; rewrite ?app_nil_r;
      repeat split; reflexivity.
  - intros He. unfold scrollToItem, asNumber. cbn [isNumber].
    unfold bind at 1. cbn [get]. unfold bind at 1.
    unfold freshened in He |- *.
    unfold when, measureItems, modify, ret.
    destruct (hasDynamicSizeRef s); unfold bind at 1; cbn [get];
      cbn [msDataRef set_msDataRef] in He |- *; rewrite He;
      rewrite (get_past (A:=Measure) []) by (cbn; lia); reflexivity.
Qed.


End ToItem.

Lemma handleScroll_request_range_witness :
  let a := mkLoadMore 15 29 1 1050 true in
  lm_startIndex a = lm_loadIndex a * loadMoreCount loaderOptions
  /\ lm_stopIndex a - lm_startIndex a + 1 = loadMoreCount loaderOptions
  /\ lm_startIndex a <= 15 + 1 <= lm_stopIndex a
  /\ lm_scrollOffset a = 1050.
Proof.
  cbv zeta.
  assert (E : handleScroll alwaysUpdate loaderOptions 1050 true false
                (scrolledTo 1000)
              = Ok tt (finalState
                         (handleScroll alwaysUpdate loaderOptions 1050 true
                            false (scrolledTo 1000))))
    by (vm_compute; reflexivity).
  assert (Hin : innerRef (scrolledTo 1000)
                = Some (mkStyle (Some 900) None (Some 3100) None))
    by (vm_compute; reflexivity).
  assert (Hn : itemCount loaderOptions <> O) by (vm_compute; discriminate).
  assert (Hc : getCalcData loaderOptions
                 (hasDynamicSizeRef (scrolledTo 1000))
                 (outerRectRef (scrolledTo 1000))
                 (msDataRef (scrolledTo 1000)) 1050
               = Some (mkCalc 9 16 10 15 900 3100))
    by (vm_compute; reflexivity).
  assert (Hm : isMountedRef (scrolledTo 1000) = true)
    by (vm_compute; reflexivity).
  assert (Hp : 0 < loadMoreCount loaderOptions) by (vm_compute; reflexivity).
  apply (handleScroll_request_range alwaysUpdate loaderOptions 1050 false
           _ _ _ _ E Hin Hn Hc Hm Hp (mkLoadMore 15 29 1 1050 true)).
  vm_compute. left. reflexivity.
Defined.


Lemma scrollToItem_into_view_witness :
  exists s' el' m,
    scrollToItem intFloat stickyOptions
      (ItemOpts (JNum 50) (Some AlignStart) None) (Some 3%nat) 0
      stickyMounted = Ok tt s'
    /\ JsArray.get (msDataRef stickyMounted) 50 = Some m
    /\ outerRef s' = Some el'
    /\ scrollPos stickyOptions el' <= m_start m
       <= scrollPos stickyOptions el' + 500
    /\ calls s' = calls stickyMounted ++ [CallComplete 3%nat].
Proof.
  assert (Hs : msDataRef stickyMounted
               = measureStore stickyOptions (mkRect 300 500) false [])
    by (vm_compute; reflexivity).
  destruct (scrollToItem_into_view intFloat stickyOptions 50
              (Some AlignStart) None (Some 3%nat) 0 stickyMounted
              (mkOuter 0 0) 12000)
    as (s' & el' & m & H & Hm & Ho & Hc & _ & _ & Hp).
  - vm_compute. reflexivity.
  - reflexivity.
  - vm_compute. reflexivity.
  - apply store_okb_sound. vm_compute. reflexivity.
  - rewrite Hs. apply measureStore_chained.
  - vm_compute. reflexivity.
  - vm_compute. split; [discriminate | reflexivity].
  - exists s', el', m. split; [exact H|].
    split; [exact Hm|]. split; [exact Ho|]. split; [|exact Hc].
    cbv zeta in Hp. cbn [alignOf] in Hp.
    destruct Hp as (_ & Hv & _). exact Hv.
Defined.

Lemma scrollToItem_fits_witness :
  let o := fixedOptions 2 100 1 in
  let s := run alwaysUpdate intFloat
             [EvMount; EvResize o (mkRect 300 500)] (initState None None) in
  exists s',
    scrollToItem intFloat o (ItemOpts (JNum 1) None None) (Some 3%nat) 0 s
    = Ok tt s'
    /\ outerRef s' = outerRef s /\ userScrollRef s' = userScrollRef s
    /\ calls s' = calls s ++ completion (Some 3%nat)
    /\ frames s' = frames s /\ timeouts s' = timeouts s.
Proof.
  cbv zeta.
  destruct (proj1 (scrollToItem_fits intFloat (fixedOptions 2 100 1) 1 None
                     None (Some 3%nat) 0
                     (run alwaysUpdate intFloat
                        [EvMount;
                         EvResize (fixedOptions 2 100 1) (mkRect 300 500)]
                        (initState None None)))
              (mkMeasure 1 100 200 100) 200)
    as (s' & H & Ho & Hu & Hc & Hf & Ht & _).
  - vm_compute. reflexivity.
  - vm_compute. reflexivity.
  - vm_compute. discriminate.
  - exists s'. repeat split; assumption.
Defined.


(** ** Animated scrolling and the cleanup *)

Lemma find_fresh (l : list Frame) (fr : Frame) (id : nat) :
  fr_id fr = id -> Forall (fun f => fr_id f <> id) l ->
  find (fun f => Nat.eqb (fr_id f) id) (l ++ [fr]) = Some fr.
Proof.
  intros <-. induction 1 as [|f l Hf _ IH]; cbn.
  - now rewrite Nat.eqb_refl.
  - destruct (Nat.eqb_spec (fr_id f) (fr_id fr)); [contradiction | exact IH].
Qed.

Lemma filter_fresh (l : list Frame) (fr : Frame) (id : nat) :
  fr_id fr = id -> Forall (fun f => fr_id f <> id) l ->
  filter (fun f => negb (Nat.eqb (fr_id f) id)) (l ++ [fr]) = l.
Proof.
  intros <-. induction 1 as [|f l Hf _ IH]; cbn.
  - now rewrite Nat.eqb_refl.
  - destruct (Nat.eqb_spec (fr_id f) (fr_id fr)); [contradiction|].
    cbn. now rewrite IH.
Qed.

Lemma find_filtered (l : list Frame) (id : nat) :
  find (fun f => Nat.eqb (fr_id f) id)
    (filter (fun f => negb (Nat.eqb (fr_id f) id)) l) = None.
Proof.
  induction l as [|f l IH]; [reflexivity|]. cbn.
  destruct (Nat.eqb (fr_id f) id) eqn:E; cbn; [exact IH|].
  now rewrite E.
Qed.

Section Animation.
Variable shouldUpdate : list Item -> list Item -> bool.
Variable fp : FloatOps.

(** X16.  A smooth [scrollTo] does not move the container or invoke the
    callback by itself: it clears the user-scroll flag and requests one
    frame.  When that frame runs, the container is set to the eased
    position for the elapsed time; before the duration has elapsed the frame
    requests exactly one successor and the callback stays pending, and from
    the duration on no frame of the animation is left and the callback has
    been invoked once. *)
Theorem scrollToOffset_smooth (o : Options) (n : Z) (cb : option nat)
    (now now' : Z) (s : State) :
  0 < scrollDuration o ->
  Forall (fun f => fr_id f <> nextFrameId s) (frames s) ->
  let id := nextFrameId s in
  let cbk := option_map CbUser cb in
  let s1 := after shouldUpdate fp
              (EvScrollTo o (OffsetOpts (JNum n) (Some true)) cb now) s in
  let s2 := after shouldUpdate fp (EvFrame id now') s1 in
  (outerRef s1 = outerRef s /\ calls s1 = calls s
   /\ userScrollRef s1 = false /\ scrollToRafRef s1 = Some id
   /\ frames s1 = frames s ++ [mkFrame id o now n (scrollOffsetRef s) cbk])
  /\ (forall el, outerRef s = Some el ->
        exists el', outerRef s2 = Some el'
          /\ scrollPos o el'
             = easeOffset fp (now' - now) (scrollDuration o) n
                 (scrollOffsetRef s))
  /\ (now' - now < scrollDuration o ->
      frames s2
      = frames s ++ [mkFrame (S id) o now n (scrollOffsetRef s) cbk]
      /\ calls s2 = calls s /\ scrollToRafRef s2 = Some (S id))
  /\ (scrollDuration o <= now' - now ->
      frames s2 = frames s /\ calls s2 = calls s ++ completion cb).
Proof.
  intros Hd Hfresh. cbv zeta.
  set (fr := mkFrame (nextFrameId s) o now n (scrollOffsetRef s)
               (option_map CbUser cb)).
  assert (E1 : after shouldUpdate fp
                 (EvScrollTo o (OffsetOpts (JNum n) (Some true)) cb now) s
               = set_scrollToRafRef (Some (nextFrameId s))
                   (set_nextFrameId (S (nextFrameId s))
                      (set_frames (frames s ++ [fr])
                         (set_userScrollRef false s))))
    by reflexivity.
  rewrite E1. set (s1 := set_scrollToRafRef _ _).
  split; [repeat split; reflexivity|].
  assert (E2 : after shouldUpdate fp (EvFrame (nextFrameId s) now') s1
               = finalState
                   (runFrame fp fr now' (set_frames (frames s) s1))).
  { unfold after, step. rewrite finalState_bind. cbn [get].
    change (frames s1) with (frames s ++ [fr]).
    rewrite (find_fresh (frames s) fr (nextFrameId s) eq_refl Hfresh).
    rewrite finalState_bind. unfold modify at 1.
    change (frames s1) with (frames s ++ [fr]).
    now rewrite (filter_fresh (frames s) fr (nextFrameId s) eq_refl
                   Hfresh). }
  rewrite E2. unfold runFrame. cbn [fr_options fr_start fr_offset
                                      fr_prevOffset fr_cb fr].
  unfold timeBelowOne. destruct (Z.ltb_spec 0 (scrollDuration o)); [|lia].
  unfold bind, scrollTo, modify, requestFrame, runCallback, logCall.
  destruct (Z.ltb_spec (now' - now) (scrollDuration o)) as [L|L];
    (split; [intros el Hel; cbn; rewrite Hel;
             destruct cb; cbn;
             eexists; (split; [reflexivity|]);
             unfold scrollPos; destruct (horizontal o); reflexivity|]);
    (split; intros Hlt; [try lia | try lia]);
    destruct cb; cbn; destruct (outerRef s); cbn; rewrite ?app_nil_r;
    repeat split; reflexivity.
Qed.

(** X17.  The cleanup disarms both debounces, forgets every observer and
    cancels the frame requested last, and only that one: afterwards the
    debounce events and the event of that frame change nothing, while frames
    requested by earlier animations are still pending. *)
Theorem teardown_cancels (o : Options) (s : State) :
  let s' := after shouldUpdate fp EvTeardown s in
  isScrollingTimer s' = false /\ userScrollTimer s' = false
  /\ rosRef s' = [] /\ scrollToRafRef s' = None
  /\ (forall f, In f (frames s')
                <-> In f (frames s) /\ Some (fr_id f) <> scrollToRafRef s)
  /\ after shouldUpdate fp (EvResetIsScrolling o) s' = s'
  /\ after shouldUpdate fp EvResetUserScroll s' = s'
  /\ (forall id now, scrollToRafRef s = Some id ->
        after shouldUpdate fp (EvFrame id now) s' = s')
  /\ msDataRef s' = msDataRef s /\ items s' = items s
  /\ timeouts s' = timeouts s.
Proof.
  cbv zeta. unfold after at 1 2 3 4 5 6 7 8 9 10 11.
  unfold step at 1 2 3 4 5 6 7 8 9 10 11.
  unfold teardown, cancelResetIsScrolling, cancelResetUserScroll, bind,
    modify. cbn [finalState].
  cbn. destruct (scrollToRafRef s) as [id|] eqn:E; cbn; rewrite ?E; cbn;
    (split; [reflexivity|]); (split; [reflexivity|]);
    (split; [reflexivity|]); (split; [reflexivity|]);
    (split; [|split; [reflexivity|]; split; [reflexivity|];
              split; [|repeat split; reflexivity]]).
  - intros f. rewrite filter_In, negb_true_iff, Nat.eqb_neq.
    split; intros (H & Hid); (split; [exact H|]); congruence.
  - intros id' now [= <-]. unfold after, step, bind, get. cbn.
    now rewrite find_filtered.
  - intros f. split; [intros H; split; [exact H | discriminate] | tauto].
  - intros id' now H. discriminate H.
Qed.

End Animation.

Lemma scrollToOffset_smooth_witness :
  let s := stickyMounted in
  let s1 := after alwaysUpdate intFloat
              (EvScrollTo stickyOptions (OffsetOpts (JNum 700) (Some true))
                 (Some 5%nat) 10) s in
  let s2 := after alwaysUpdate intFloat (EvFrame (nextFrameId s) 600) s1 in
  frames s2 = frames s /\ calls s2 = calls s ++ completion (Some 5%nat).
Proof.
  cbv zeta.
  refine (proj2 (proj2 (proj2
            (scrollToOffset_smooth alwaysUpdate intFloat stickyOptions 700
               (Some 5%nat) 10 600 stickyMounted _ _))) _).
  - vm_compute. reflexivity.
  - vm_compute. constructor.
  - vm_compute. discriminate.
Defined.

Lemma teardown_cancels_witness :
  let o := stickyOptions in
  let s := run alwaysUpdate intFloat
             [EvScrollTo o (OffsetOpts (JNum 700) (Some true)) None 10;
              EvScrollTo o (OffsetOpts (JNum 900) (Some true)) None 20]
             stickyMounted in
  let s' := after alwaysUpdate intFloat EvTeardown s in
  map fr_id (frames s) = [1; 2]%nat /\ scrollToRafRef s = Some 2%nat
  /\ map fr_id (frames s') = [1]%nat
  /\ after alwaysUpdate intFloat (EvFrame 2 600) s' = s'.
Proof.
  cbv zeta.
  split; [vm_compute; reflexivity|].
  assert (R : scrollToRafRef
                (run alwaysUpdate intFloat
                   [EvScrollTo stickyOptions
                      (OffsetOpts (JNum 700) (Some true)) None 10;
                    EvScrollTo stickyOptions
                      (OffsetOpts (JNum 900) (Some true)) None 20]
                   stickyMounted) = Some 2%nat)
    by (vm_compute; reflexivity).
  split; [exact R|]. split; [vm_compute; reflexivity|].
  destruct (teardown_cancels alwaysUpdate intFloat stickyOptions
              (run alwaysUpdate intFloat
                 [EvScrollTo stickyOptions
                    (OffsetOpts (JNum 700) (Some true)) None 10;
                  EvScrollTo stickyOptions
                    (OffsetOpts (JNum 900) (Some true)) None 20]
                 stickyMounted))
    as (_ & _ & _ & _ & _ & _ & _ & Hf & _).
  exact (Hf 2%nat 600 R).
Defined.

(** ** The initial items *)

(** A write at an index that is not negative: the array grows to hold the
    index, the written entry is read back, every other read is as before. *)
Lemma set_spec {A} (a : JsArray.t A) (i : Z) (v : A) :
  0 <= i ->
  JsArray.len (JsArray.set a i v) = Z.max (JsArray.len a) (i + 1)
  /\ forall j, JsArray.get (JsArray.set a i v) j
               = if j =? i then Some v else JsArray.get a j.
Proof.
  intros Hi. destruct (Z_lt_dec i (JsArray.len a)) as [L|G].
  - split.
    + unfold JsArray.len. rewrite length_set by exact L.
      unfold JsArray.len in L. lia.
    + intros j. destruct (Z.eqb_spec j i) as [->|N].
      * apply get_set_same. lia.
      * apply get_set_other; [exact L | congruence].
  - unfold JsArray.set, JsArray.len in *.
    destruct (Z.ltb_spec i 0); [lia|].
    destruct (Nat.ltb_spec (Z.to_nat i) (length a)); [lia|].
    split.
    + rewrite !length_app, repeat_length. cbn. lia.
    + intros j. unfold JsArray.get.
      destruct (Z.ltb_spec j 0) as [Jn|Jn];
        [destruct (Z.eqb_spec j i); [lia | reflexivity]|].
      destruct (Nat.lt_ge_cases (Z.to_nat j) (length a)) as [J1|J1].
      { rewrite nth_error_app1 by exact J1.
        destruct (Z.eqb_spec j i); [lia | reflexivity]. }
      rewrite nth_error_app2 by exact J1.
      rewrite (proj2 (nth_error_None a (Z.to_nat j)) J1).
      destruct (Z.eqb_spec j i) as [->|N].
      * rewrite nth_error_app2 by (rewrite repeat_length; lia).
        rewrite repeat_length, Nat.sub_diag. reflexivity.
      * destruct (Nat.lt_ge_cases (Z.to_nat j - length a)
                    (Z.to_nat i - length a)) as [J2|J2].
        -- rewrite nth_error_app1 by (rewrite repeat_length; exact J2).
           destruct (nth_error (repeat None _) _) as [e|] eqn:E;
             [|reflexivity].
           apply nth_error_In, repeat_spec in E. now subst.
        -- rewrite nth_error_app2 by (rewrite repeat_length; exact J2).
           rewrite repeat_length.
           destruct (Z.to_nat j - length a - (Z.to_nat i - length a))%nat
             as [|d] eqn:D; [lia|].
           cbn. now destruct d.
Qed.

Lemma ssrLoop_spec (o : Options) (k : nat) : forall i a,
  0 <= i ->
  JsArray.len (ssrLoop o k i a)
  = (if (k =? 0)%nat then JsArray.len a
     else Z.max (JsArray.len a) (i + Z.of_nat k))
  /\ forall j, JsArray.get (ssrLoop o k i a) j
               = if (i <=? j) && (j <? i + Z.of_nat k)
                 then Some (ssrItem o j) else JsArray.get a j.
Proof.
  induction k as [|k IH]; intros i a Hi; cbn [ssrLoop].
  - split; [reflexivity|]. intros j.
    destruct (Z.leb_spec i j); destruct (Z.ltb_spec j (i + Z.of_nat 0));
      cbn; try reflexivity; lia.
  - destruct (set_spec a i (ssrItem o i) Hi) as (L1 & G1).
    destruct (IH (i + 1) (JsArray.set a i (ssrItem o i)) ltac:(lia))
      as (L2 & G2).
    split.
    + rewrite L2, L1. cbn [Nat.eqb]. destruct (Nat.eqb_spec k 0); lia.
    + intros j. rewrite G2, G1.
      destruct (Z.leb_spec (i + 1) j);
        destruct (Z.ltb_spec j (i + 1 + Z.of_nat k));
        destruct (Z.leb_spec i j);
        destruct (Z.ltb_spec j (i + Z.of_nat (S k)));
        destruct (Z.eqb_spec j i); cbn; subst; try reflexivity; lia.
Qed.

(** X18.  The initial item list.  Without [ssrItemCount], or with the number
    0, it is empty.  With a positive number n it holds items 0..n-1; with a
    range [idx, len], 0 <= idx <= len, it has len + 1 slots of which those
    below idx are holes and those from idx to len are items.  Every item has
    start 0, width 0, an inert measureRef, no isScrolling or isSticky mark,
    and the size getItemSize estimates for a container of width 0. *)
Theorem getInitItems_spec (o : Options) :
  getInitItems o SsrAbsent = [] /\ getInitItems o (SsrNum 0) = []
  /\ (forall n, 0 < n ->
        JsArray.len (getInitItems o (SsrNum n)) = n
        /\ forall j, JsArray.get (getInitItems o (SsrNum n)) j
                     = if (0 <=? j) && (j <? n)
                       then Some (ssrItem o j) else None)
  /\ (forall idx len, 0 <= idx <= len ->
        JsArray.len (getInitItems o (SsrRange idx len)) = len + 1
        /\ forall j, JsArray.get (getInitItems o (SsrRange idx len)) j
                     = if (idx <=? j) && (j <=? len)
                       then Some (ssrItem o j) else None)
  /\ (forall j, start (ssrItem o j) = 0 /\ width (ssrItem o j) = 0
                /\ measureRef (ssrItem o j) = None
                /\ isScrolling (ssrItem o j) = false
                /\ isSticky (ssrItem o j) = false
                /\ forall h, size (ssrItem o j)
                             = getItemSize o (mkRect 0 h) j).
Proof.
  split; [reflexivity|]. split; [reflexivity|]. split; [|split].
  - intros n Hn. unfold getInitItems.
    destruct (Z.eqb_spec n 0); [lia|].
    destruct (ssrLoop_spec o (Z.to_nat (n - 1 - 0 + 1)) 0 [] ltac:(lia))
      as (L & G).
    split.
    + rewrite L. destruct (Nat.eqb_spec (Z.to_nat (n - 1 - 0 + 1)) 0);
        unfold JsArray.len; cbn; lia.
    + intros j. rewrite G.
      replace (0 + Z.of_nat (Z.to_nat (n - 1 - 0 + 1))) with n by lia.
      destruct (_ && _); [reflexivity|].
      unfold JsArray.get. destruct (j <? 0); [reflexivity|].
      now destruct (Z.to_nat j).
  - intros idx len H. unfold getInitItems.
    destruct (ssrLoop_spec o (Z.to_nat (len - idx + 1)) idx [] ltac:(lia))
      as (L & G).
    split.
    + rewrite L. destruct (Nat.eqb_spec (Z.to_nat (len - idx + 1)) 0);
        unfold JsArray.len; cbn; lia.
    + intros j. rewrite G.
      replace (idx + Z.of_nat (Z.to_nat (len - idx + 1))) with (len + 1)
        by lia.
      replace (j <? len + 1) with (j <=? len)
        by (destruct (Z.leb_spec j len), (Z.ltb_spec j (len + 1));
            try reflexivity; lia).
      destruct (_ && _); [reflexivity|].
      unfold JsArray.get. destruct (j <? 0); [reflexivity|].
      now destruct (Z.to_nat j).
  - intros j. unfold ssrItem, getItemSize. cbn.
    repeat split.
Qed.

Lemma getInitItems_spec_witness :
  JsArray.len (getInitItems unevenOptions (SsrRange 1 2)) = 2 + 1
  /\ JsArray.get (getInitItems unevenOptions (SsrRange 1 2)) 0 = None
  /\ JsArray.get (getInitItems unevenOptions (SsrRange 1 2)) 1
     = Some (ssrItem unevenOptions 1).
Proof.
  destruct (proj1 (proj2 (proj2 (proj2 (getInitItems_spec unevenOptions))))
              1 2 ltac:(lia)) as (L & G).
  split; [exact L|]. split; [exact (G 0) | exact (G 1)].
Defined.
